(** * The price-history ledger of the travel-quote assistant

    A shallow embedding of the ledger logic of [src/index.tsx]: the
    stored-search records, the append-and-cap update made by
    [handleSearch], the baseline query [previousPrice], the derived
    chart series [priceHistoryForChart], the change cell [renderChange],
    the change narration of the two summary generators, and the
    persistence of the history through [JSON.stringify] / [JSON.parse]
    and [localStorage].

    JavaScript numbers are IEEE 754 binary64 values: they are modelled
    by the primitive floats of the kernel, so that [-], [+], [<] and
    the truthiness test compute as they do in the engine.  A call that
    may throw returns an [Outcome].  What the engine alone decides, the
    decimal text of a number and the reading of a number token, is a
    parameter ([Engine]).

    The rest of the component is embedded after the ledger: the
    sessions of searches with their stored text, the bars and the table
    of [PriceChart], the export, the flight links, the previews of the
    two summaries with their share links, and the passenger counts.
    Strings are sequences of bytes, text outside ASCII being held in
    UTF-8; what the locale of the host decides, the text of a date, is
    a parameter ([Locale]).

    The file has four parts: the definitions (the code, then the
    shapes and samples the statements use), the supporting properties,
    the claims of the specification, C1 to C10, each with the example
    it is applied to, and the further properties of the component, X1
    to X14. *)

From Stdlib Require Import String Ascii List ZArith NArith Bool Arith Lia Floats.
From Stdlib Require Import DecimalString Sorted.
Import ListNotations.

Set Implicit Arguments.

(** ** JavaScript array primitives used by the source *)

Module JsArray.
Section Ops.
Variables A B : Type.

(** [arr.slice(start)]: a negative [start] counts from the end and is
    clamped at the first index; a [start] beyond the length gives the
    empty array. *)
Definition slice (start : Z) (arr : list A) : list A :=
  let len := Z.of_nat (length arr) in
  let k := if (start <? 0)%Z then Z.max (len + start) 0 else Z.min start len in
  skipn (Z.to_nat k) arr.

(** [arr[i]]: [None] stands for [undefined]. *)
Definition get (arr : list A) (i : nat) : option A := nth_error arr i.

(** [arr.map((item, index, arr) => f(item, index, arr))] for a
    callback that may throw ([None]): the first throw aborts the map. *)
Fixpoint map_from (f : A -> nat -> list A -> option B) (whole : list A)
         (index : nat) (rest : list A) : option (list B) :=
  match rest with
  | [] => Some []
  | item :: rest' =>
      match f item index whole with
      | None => None
      | Some b =>
          match map_from f whole (S index) rest' with
          | None => None
          | Some bs => Some (b :: bs)
          end
      end
  end.

Definition map (f : A -> nat -> list A -> option B) (arr : list A) : option (list B) :=
  map_from f arr 0 arr.

(** [arr.reduce(f, init)] *)
Definition reduce (f : B -> A -> B) (init : B) (arr : list A) : B :=
  fold_left f arr init.
End Ops.
End JsArray.

(** ** Types of the source *)

Module FlightLeg.
Record t : Type := mk
  { from : string; to : string; airline : string;
    departure : string; arrival : string; price : float }.
End FlightLeg.

Module HotelStay.
Record t : Type := mk
  { city : string; name : string; days : float;
    pricePerNight : float; checkInDate : string }.
End HotelStay.

Record TripResults : Type := mkTripResults
  { flights : list FlightLeg.t; accommodations : list HotelStay.t }.

Record StoredSearch : Type := mkStoredSearch
  { timestamp : string; totalFlightPrice : float; results : TripResults }.

(** [change: number | null] *)
Record PriceHistoryPoint : Type := mkPoint
  { date : string; price : float; change : option float }.

(** ** The ledger operations of [App] *)

(** The updater passed to [setSearchHistory]:
    [[...prevHistory, newHistoryEntry].slice(-7)]. *)
Definition updatedHistory (prevHistory : list StoredSearch)
           (newHistoryEntry : StoredSearch) : list StoredSearch :=
  JsArray.slice (-7) (prevHistory ++ [newHistoryEntry]).

(** [searchHistory.length > 0
      ? searchHistory[searchHistory.length - 1].totalFlightPrice : null];
    [None] stands for [null] (the element read is defined whenever the
    length is positive). *)
Definition previousPrice (searchHistory : list StoredSearch) : option float :=
  if 0 <? length searchHistory
  then match JsArray.get searchHistory (length searchHistory - 1) with
       | Some last => Some (totalFlightPrice last)
       | None => None
       end
  else None.

(** The callback of [priceHistoryForChart]; reading a field of
    [arr[index - 1]] throws when that element is [undefined]. *)
Definition chartPoint (item : StoredSearch) (index : nat)
           (arr : list StoredSearch) : option PriceHistoryPoint :=
  match (if 0 <? index
         then match JsArray.get arr (index - 1) with
              | Some prev => Some (Some (totalFlightPrice prev))
              | None => None
              end
         else Some None) with
  | None => None
  | Some previousPrice =>
      let change :=
        match previousPrice with
        | Some p => Some (totalFlightPrice item - p)%float
        | None => None
        end in
      Some {| date := timestamp item; price := totalFlightPrice item;
              change := change |}
  end.

Definition priceHistoryForChart (searchHistory : list StoredSearch)
  : option (list PriceHistoryPoint) :=
  JsArray.map chartPoint searchHistory.

(** The ledger reached from [start] by a sequence of appends. *)
Definition appendAll (start : list StoredSearch) (entries : list StoredSearch)
  : list StoredSearch :=
  fold_left updatedHistory entries start.

(** The series the specification describes: one point per observation,
    oldest first, each carrying its difference to the observation before
    it; [previous] is the price of the observation before the first one
    of [entries], if any. *)
Fixpoint deltaSeries (previous : option float) (entries : list StoredSearch)
  : list PriceHistoryPoint :=
  match entries with
  | [] => []
  | item :: rest =>
      {| date := timestamp item; price := totalFlightPrice item;
         change := option_map (fun p => (totalFlightPrice item - p)%float) previous |}
        :: deltaSeries (Some (totalFlightPrice item)) rest
  end.

(** Shorthand for a stored search of the given price. *)
Definition searchOf (t : string) (p : float) (r : TripResults) : StoredSearch :=
  {| timestamp := t; totalFlightPrice := p; results := r |}.

(** ** Values and host functions of the engine *)

(** The result of a call that may throw. *)
Inductive Outcome (A : Type) : Type :=
| Returned (a : A)
| Thrown (message : string).
Arguments Returned {A} a.
Arguments Thrown {A} message.

(** The values [JSON.parse] returns.  An object keeps its properties in
    insertion order (keys that look like array indices, which an engine
    lists first, do not occur in a ledger).  Strings are held in
    bytes. *)
Unset Elimination Schemes.
Inductive jsval : Type :=
| JNull
| JBool (b : bool)
| JNum (x : float)
| JStr (s : string)
| JArr (items : list jsval)
| JObj (props : list (string * jsval)).
Set Elimination Schemes.

(** Induction on values, through the lists they nest. *)
Section JsvalInd.
Variable P : jsval -> Prop.
Hypothesis HNull : P JNull.
Hypothesis HBool : forall b, P (JBool b).
Hypothesis HNum : forall x, P (JNum x).
Hypothesis HStr : forall s, P (JStr s).
Hypothesis HArr : forall items, Forall P items -> P (JArr items).
Hypothesis HObj : forall props, Forall (fun kv => P (snd kv)) props -> P (JObj props).

Fixpoint jsval_ind (v : jsval) : P v :=
  match v with
  | JNull => HNull
  | JBool b => HBool b
  | JNum x => HNum x
  | JStr s => HStr s
  | JArr items =>
      HArr ((fix all (l : list jsval) : Forall P l :=
               match l with
               | [] => Forall_nil P
               | v :: l' => Forall_cons v (jsval_ind v) (all l')
               end) items)
  | JObj props =>
      HObj ((fix all (l : list (string * jsval)) : Forall (fun kv => P (snd kv)) l :=
               match l with
               | [] => Forall_nil _
               | kv :: l' => Forall_cons kv (jsval_ind (snd kv)) (all l')
               end) props)
  end.
End JsvalInd.

(** What the embedding takes from the engine without looking inside:
    the decimal text of a finite number ([Number::toString]) and the
    number a JSON number token denotes ([None] when the token is not a
    number literal). *)
Class Engine : Type :=
  { NumberToString : float -> string;
    StringToNumber : string -> option float }.

Module JSON.

Definition DQUOTE : ascii := "034".
Definition BACKSLASH : ascii := "092".
Definition syntaxError : string := "SyntaxError".

(** *** Text helpers *)

Definition isDigit (c : ascii) : bool :=
  (48 <=? nat_of_ascii c) && (nat_of_ascii c <=? 57).

Definition isNumberChar (c : ascii) : bool :=
  isDigit c || (c =? "-")%char || (c =? "+")%char || (c =? ".")%char
  || (c =? "e")%char || (c =? "E")%char.

Definition isWhitespace (c : ascii) : bool :=
  (c =? " ")%char || (c =? "009")%char || (c =? "010")%char || (c =? "013")%char.

Definition hexDigit (n : nat) : ascii :=
  if n <? 10 then ascii_of_nat (48 + n) else ascii_of_nat (87 + n).

Definition hexValue (c : ascii) : option nat :=
  let n := nat_of_ascii c in
  if (48 <=? n) && (n <=? 57) then Some (n - 48)
  else if (97 <=? n) && (n <=? 102) then Some (n - 87)
  else if (65 <=? n) && (n <=? 70) then Some (n - 55)
  else None.

Fixpoint commaSep (parts : list string) : string :=
  match parts with
  | [] => ""
  | [part] => part
  | part :: rest => part ++ "," ++ commaSep rest
  end%string.

(** *** Code units

    A string of the engine is a sequence of UTF-16 code units.  Here it
    is held in bytes: text in UTF-8, and a surrogate that has no
    partner, which is no text but which an escape can name, in the
    three bytes of the same pattern. *)

Definition isHighSurrogate (n : N) : bool := ((55296 <=? n) && (n <=? 56319))%N.
Definition isLowSurrogate (n : N) : bool := ((56320 <=? n) && (n <=? 57343))%N.

(** The bytes of the code unit [n] on its own: one below [0x80], two
    below [0x800], three above. *)
Definition unitBytes (n : N) : string :=
  (if n <? 128 then String (ascii_of_N n) ""
   else if n <? 2048 then
     String (ascii_of_N (192 + n / 64)) (String (ascii_of_N (128 + n mod 64)) "")
   else
     String (ascii_of_N (224 + n / 4096))
       (String (ascii_of_N (128 + (n / 64) mod 64))
          (String (ascii_of_N (128 + n mod 64)) "")))%N.

(** The four bytes of the code point a surrogate pair stands for. *)
Definition pairBytes (high low : N) : string :=
  (let point := 65536 + (high - 55296) * 1024 + (low - 56320) in
   String (ascii_of_N (240 + point / 262144))
     (String (ascii_of_N (128 + (point / 4096) mod 64))
        (String (ascii_of_N (128 + (point / 64) mod 64))
           (String (ascii_of_N (128 + point mod 64)) ""))))%N.

(** The surrogate that three bytes hold. *)
Definition surrogateOf (b1 b2 b3 : ascii) : option N :=
  if (b1 =? "237")%char
     && (160 <=? N_of_ascii b2)%N && (N_of_ascii b2 <=? 191)%N
     && (128 <=? N_of_ascii b3)%N && (N_of_ascii b3 <=? 191)%N
  then Some (55296 + (N_of_ascii b2 - 160) * 64 + (N_of_ascii b3 - 128))%N
  else None.

(** The low surrogate a string begins with, and what follows it. *)
Definition leadingLow (s : string) : option (N * string) :=
  match s with
  | String b1 (String b2 (String b3 rest)) =>
      match surrogateOf b1 b2 b3 with
      | Some n => if isLowSurrogate n then Some (n, rest) else None
      | None => None
      end
  | _ => None
  end.

(** The code unit [n] followed by the string [str]: a high surrogate
    and the low surrogate [str] begins with are one code point. *)
Definition joinUnit (n : N) (str : string) : string :=
  if isHighSurrogate n then
    match leadingLow str with
    | Some (low, rest) => (pairBytes n low ++ rest)%string
    | None => (unitBytes n ++ str)%string
    end
  else (unitBytes n ++ str)%string.

(** The code unit of four hexadecimal digits, and its escape. *)
Definition hexUnit (a b c d : nat) : N :=
  (4096 * N.of_nat a + 256 * N.of_nat b + 16 * N.of_nat c + N.of_nat d)%N.

Definition unicodeEscape (n : N) : string :=
  String BACKSLASH
    (String "u"
       (String (hexDigit (N.to_nat (n / 4096)))
          (String (hexDigit (N.to_nat ((n / 256) mod 16)))
             (String (hexDigit (N.to_nat ((n / 16) mod 16)))
                (String (hexDigit (N.to_nat (n mod 16))) ""))))).

(** *** [JSON.stringify] *)

(** One byte of a quoted string: the short escapes, [\u00xx] for the
    other control characters, the byte itself otherwise. *)
Definition quoteChar (c : ascii) : string :=
  if (c =? DQUOTE)%char then String BACKSLASH (String DQUOTE "")
  else if (c =? BACKSLASH)%char then String BACKSLASH (String BACKSLASH "")
  else if (c =? "008")%char then String BACKSLASH "b"
  else if (c =? "012")%char then String BACKSLASH "f"
  else if (c =? "010")%char then String BACKSLASH "n"
  else if (c =? "013")%char then String BACKSLASH "r"
  else if (c =? "009")%char then String BACKSLASH "t"
  else if nat_of_ascii c <? 32
       then String BACKSLASH
              (String "u" (String "0" (String "0"
                 (String (hexDigit (nat_of_ascii c / 16))
                    (String (hexDigit (nat_of_ascii c mod 16)) "")))))
       else String c "".

(** The characters between the quotes.  A surrogate without a partner
    is written as its escape; a high surrogate followed by a low one is
    a pair and is written as it is, like all other text. *)
Fixpoint quoteChars (s : string) : string :=
  match s with
  | EmptyString => EmptyString
  | String b1 rest =>
      match rest with
      | String b2 (String b3 rest3) =>
          match surrogateOf b1 b2 b3 with
          | Some unit =>
              let escaped := (unicodeEscape unit ++ quoteChars rest3)%string in
              if isHighSurrogate unit then
                match rest3 with
                | String c1 (String c2 (String c3 rest6)) =>
                    match surrogateOf c1 c2 c3 with
                    | Some low =>
                        if isLowSurrogate low
                        then String b1 (String b2 (String b3
                               (String c1 (String c2 (String c3
                                  (quoteChars rest6))))))
                        else escaped
                    | None => escaped
                    end
                | _ => escaped
                end
              else escaped
          | None => (quoteChar b1 ++ quoteChars rest)%string
          end
      | _ => (quoteChar b1 ++ quoteChars rest)%string
      end
  end.

Definition quote (s : string) : string :=
  String DQUOTE (quoteChars s ++ String DQUOTE "").

(** *** Reading tokens *)

Fixpoint skipWs (s : string) : string :=
  match s with
  | String c rest => if isWhitespace c then skipWs rest else s
  | EmptyString => EmptyString
  end.

Fixpoint spanNumber (s : string) : string * string :=
  match s with
  | String c rest =>
      if isNumberChar c
      then let (token, after) := spanNumber rest in (String c token, after)
      else (EmptyString, s)
  | EmptyString => (EmptyString, EmptyString)
  end.

Fixpoint stripPrefix (word s : string) : option string :=
  match word, s with
  | EmptyString, _ => Some s
  | String a word', String b s' =>
      if (a =? b)%char then stripPrefix word' s' else None
  | String _ _, EmptyString => None
  end.

(** The characters of a string literal after its opening quote, up
    to and including the closing quote.  A raw control character ends
    the parse; every escape [\uXXXX] is read, as the code unit it
    names.  The text read is UTF-8, so a surrogate reaches the string
    through an escape only. *)
Fixpoint parseChars (s : string) : option (string * string) :=
  let cons (c : ascii) (r : option (string * string)) :=
    match r with
    | Some (str, after) => Some (String c str, after)
    | None => None
    end in
  match s with
  | EmptyString => None
  | String c rest =>
      if (c =? DQUOTE)%char then Some (EmptyString, rest)
      else if (c =? BACKSLASH)%char then
        match rest with
        | EmptyString => None
        | String e rest' =>
            if (e =? DQUOTE)%char then cons DQUOTE (parseChars rest')
            else if (e =? BACKSLASH)%char then cons BACKSLASH (parseChars rest')
            else if (e =? "/")%char then cons "/"%char (parseChars rest')
            else if (e =? "b")%char then cons "008"%char (parseChars rest')
            else if (e =? "f")%char then cons "012"%char (parseChars rest')
            else if (e =? "n")%char then cons "010"%char (parseChars rest')
            else if (e =? "r")%char then cons "013"%char (parseChars rest')
            else if (e =? "t")%char then cons "009"%char (parseChars rest')
            else if (e =? "u")%char then
              match rest' with
              | String h1 (String h2 (String h3 (String h4 rest''))) =>
                  match hexValue h1, hexValue h2, hexValue h3, hexValue h4 with
                  | Some a, Some b, Some c', Some d =>
                      match parseChars rest'' with
                      | Some (str, after) =>
                          Some (joinUnit (hexUnit a b c' d) str, after)
                      | None => None
                      end
                  | _, _, _, _ => None
                  end
              | _ => None
              end
            else None
        end
      else if nat_of_ascii c <? 32 then None
      else cons c (parseChars rest)
  end.

Section WithEngine.
Context {E : Engine}.

(** A number that is not finite is written as [null]. *)
Definition stringifyNumber (x : float) : string :=
  if is_finite x then NumberToString x else "null"%string.

Fixpoint stringify (v : jsval) : string :=
  match v with
  | JNull => "null"
  | JBool b => if b then "true" else "false"
  | JNum x => stringifyNumber x
  | JStr s => quote s
  | JArr items => "[" ++ commaSep (List.map stringify items) ++ "]"
  | JObj props =>
      "{" ++ commaSep (List.map (fun kv => let '(k, v) := kv in
                                           quote k ++ ":" ++ stringify v) props)
          ++ "}"
  end%string.

Section Containers.
Variable parseValue : string -> option (jsval * string).

(** The elements of an array after its opening bracket, up to and
    including the closing bracket; [n] bounds their number. *)
Fixpoint parseElements (n : nat) (s : string) : option (list jsval * string) :=
  match n with
  | O => None
  | S n' =>
      match parseValue s with
      | None => None
      | Some (v, r) =>
          match skipWs r with
          | String c r' =>
              if (c =? ",")%char then
                match parseElements n' r' with
                | Some (vs, after) => Some (v :: vs, after)
                | None => None
                end
              else if (c =? "]")%char then Some ([v], r')
              else None
          | EmptyString => None
          end
      end
  end.

(** The members of an object after its opening brace. *)
Fixpoint parseMembers (n : nat) (s : string)
  : option (list (string * jsval) * string) :=
  match n with
  | O => None
  | S n' =>
      match skipWs s with
      | String q r0 =>
          if (q =? DQUOTE)%char then
            match parseChars r0 with
            | None => None
            | Some (k, r1) =>
                match skipWs r1 with
                | String c r2 =>
                    if (c =? ":")%char then
                      match parseValue r2 with
                      | None => None
                      | Some (v, r3) =>
                          match skipWs r3 with
                          | String d r4 =>
                              if (d =? ",")%char then
                                match parseMembers n' r4 with
                                | Some (ms, after) => Some ((k, v) :: ms, after)
                                | None => None
                                end
                              else if (d =? "}")%char then Some ([(k, v)], r4)
                              else None
                          | EmptyString => None
                          end
                      end
                    else None
                | EmptyString => None
                end
            end
          else None
      | EmptyString => None
      end
  end.
End Containers.

(** Defining a property: a key already present keeps its place and
    takes the new value, a new key goes last. *)
Fixpoint setProperty (props : list (string * jsval)) (kv : string * jsval)
  : list (string * jsval) :=
  match props with
  | [] => [kv]
  | (k', v') :: rest =>
      if (k' =? fst kv)%string then (k', snd kv) :: rest
      else (k', v') :: setProperty rest kv
  end.

(** *** [JSON.parse] *)

(** One value, given the parser [pv] for the values nested in it and
    the bound [n] on the number of its elements. *)
Definition parseValueWith (pv : string -> option (jsval * string)) (n : nat)
           (s : string) : option (jsval * string) :=
  match skipWs s with
  | EmptyString => None
  | String c r as t =>
      if (c =? "[")%char then
        match skipWs r with
        | EmptyString => None
        | String c' r' as t' =>
            if (c' =? "]")%char then Some (JArr [], r')
            else match parseElements pv n t' with
                 | Some (items, after) => Some (JArr items, after)
                 | None => None
                 end
        end
      else if (c =? "{")%char then
        match skipWs r with
        | EmptyString => None
        | String c' r' as t' =>
            if (c' =? "}")%char then Some (JObj [], r')
            else match parseMembers pv n t' with
                 | Some (members, after) =>
                     Some (JObj (fold_left setProperty members []), after)
                 | None => None
                 end
        end
      else if (c =? DQUOTE)%char then
        match parseChars r with
        | Some (str, after) => Some (JStr str, after)
        | None => None
        end
      else if (c =? "n")%char then
        option_map (fun after => (JNull, after)) (stripPrefix "null" t)
      else if (c =? "t")%char then
        option_map (fun after => (JBool true, after)) (stripPrefix "true" t)
      else if (c =? "f")%char then
        option_map (fun after => (JBool false, after)) (stripPrefix "false" t)
      else if isNumberChar c then
        let (token, after) := spanNumber t in
        match StringToNumber token with
        | Some x => Some (JNum x, after)
        | None => None
        end
      else None
  end.

(** The parser of values nested at most [fuel] deep. *)
Fixpoint parseValue (fuel : nat) : string -> option (jsval * string) :=
  match fuel with
  | O => fun _ => None
  | S fuel' => parseValueWith (parseValue fuel') fuel'
  end.

(** [JSON.parse(text)]: one value, then only white space; anything
    else throws a [SyntaxError].  Every nested value and every
    element takes at least one character, so the length of the text
    bounds both the nesting and the number of elements. *)
Definition parse (text : string) : Outcome jsval :=
  match parseValue (S (String.length text)) text with
  | Some (v, after) =>
      match skipWs after with
      | EmptyString => Returned v
      | String _ _ => Thrown syntaxError
      end
  | None => Thrown syntaxError
  end.
End WithEngine.
End JSON.

(** *** What the round trip asks of a value *)

Fixpoint allChars (p : ascii -> bool) (s : string) : bool :=
  match s with
  | EmptyString => true
  | String c rest => p c && allChars p rest
  end.

(** A non-empty token made of the characters of number literals. *)
Definition numberToken (token : string) : bool :=
  match token with
  | EmptyString => false
  | String _ _ => allChars JSON.isNumberChar token
  end.

(** The engine reads back the number it wrote. *)
Definition readsBack {E : Engine} (x : float) : Prop :=
  numberToken (NumberToString x) = true /\
  StringToNumber (NumberToString x) = Some x.

(** Every number in the value is finite and read back by the engine,
    and no object holds a key twice. *)
#[warnings="-register-all"]
Inductive Faithful {E : Engine} : jsval -> Prop :=
| FaithfulNull : Faithful JNull
| FaithfulBool b : Faithful (JBool b)
| FaithfulNum x : is_finite x = true -> readsBack x -> Faithful (JNum x)
| FaithfulStr s : Faithful (JStr s)
| FaithfulArr items : Forall Faithful items -> Faithful (JArr items)
| FaithfulObj props :
    NoDup (List.map fst props) ->
    Forall (fun kv => Faithful (snd kv)) props ->
    Faithful (JObj props).

(** Number of nodes of a value. *)
Fixpoint weight (v : jsval) : nat :=
  match v with
  | JArr items => S (list_sum (List.map weight items))
  | JObj props => S (list_sum (List.map (fun kv => weight (snd kv)) props))
  | _ => 1
  end.

(** A number that survives the encoding: finite, and read back by the
    engine from what the engine wrote. *)
Definition survives {E : Engine} (x : float) : Prop :=
  is_finite x = true /\ readsBack x.

(** *** Shapes of text used to state how the parser reads what was written *)

Module JSONShape.
Import JSON.
Local Open Scope string_scope.

(** A string that may follow a number token. *)
Definition delimited (rest : string) : Prop :=
  match rest with
  | EmptyString => True
  | String c _ => isNumberChar c = false
  end.

(** A character a value may start with: neither white space nor the
    closing of a container. *)
Definition opening (c : ascii) : bool :=
  negb (isWhitespace c) && negb (c =? "]")%char && negb (c =? "}")%char.

(** A text that starts with the first character of a value. *)
Definition startsValue (text : string) : Prop :=
  exists c tail, text = String c tail /\ opening c = true.

(** A parser for one value that leaves less than it was given. *)
Definition consumes (pv : string -> option (jsval * string)) : Prop :=
  forall s v r, pv s = Some (v, r) -> String.length r < String.length s.

Section WithEngine.
Context {E : Engine}.

(** What a recursive-descent step needs of the parser for one value. *)
Definition parsesBack (pv : string -> option (jsval * string)) (v : jsval) : Prop :=
  forall rest, delimited rest -> pv (stringify v ++ rest) = Some (v, rest).

(** The text of one member of an object. *)
Definition memberText (kv : string * jsval) : string :=
  let '(k, v) := kv in quote k ++ ":" ++ stringify v.
End WithEngine.
End JSONShape.

(** ** The persisted form of the ledger *)

(** The JavaScript value a typed record is.  The keys of a stored
    search are in the order of the object literal of [handleSearch];
    those of the payload in the order of the interface declarations. *)
Definition legToJS (leg : FlightLeg.t) : jsval :=
  JObj [("from", JStr (FlightLeg.from leg)); ("to", JStr (FlightLeg.to leg));
        ("airline", JStr (FlightLeg.airline leg));
        ("departure", JStr (FlightLeg.departure leg));
        ("arrival", JStr (FlightLeg.arrival leg));
        ("price", JNum (FlightLeg.price leg))]%string.

Definition stayToJS (stay : HotelStay.t) : jsval :=
  JObj [("city", JStr (HotelStay.city stay)); ("name", JStr (HotelStay.name stay));
        ("days", JNum (HotelStay.days stay));
        ("pricePerNight", JNum (HotelStay.pricePerNight stay));
        ("checkInDate", JStr (HotelStay.checkInDate stay))]%string.

Definition resultsToJS (r : TripResults) : jsval :=
  JObj [("flights", JArr (List.map legToJS (flights r)));
        ("accommodations", JArr (List.map stayToJS (accommodations r)))]%string.

Definition searchToJS (s : StoredSearch) : jsval :=
  JObj [("timestamp", JStr (timestamp s));
        ("totalFlightPrice", JNum (totalFlightPrice s));
        ("results", resultsToJS (results s))]%string.

Definition ledgerToJS (ledger : list StoredSearch) : jsval :=
  JArr (List.map searchToJS ledger).

(** Every number a ledger holds: the tracked prices and the numbers of
    the payloads. *)
Definition numbersOfSearch (s : StoredSearch) : list float :=
  totalFlightPrice s
    :: List.map FlightLeg.price (flights (results s))
    ++ flat_map (fun stay => [HotelStay.days stay; HotelStay.pricePerNight stay])
         (accommodations (results s)).

Definition numbersOf (ledger : list StoredSearch) : list float :=
  flat_map numbersOfSearch ledger.

(** ** Change narration of the summary generators *)

(** [if (previousPrice)] on a [number | null]: [null], [0], [-0] and
    [NaN] are falsy. *)
Definition truthy (previousPrice : option float) : bool :=
  match previousPrice with
  | None => false
  | Some p => negb (is_zero p || is_nan p)
  end.

(** The sentence chosen for [priceAnalysisPrompt]; the amount is the
    argument of [formatCurrency] in the sentence. *)
Inductive PriceAnalysis : Type :=
| FirstSearch
| PriceRose (amount : float)
| PriceFell (amount : float)
| PriceStable.

(** [results.flights.reduce((sum, leg) => sum + leg.price, 0)] *)
Definition totalFlightCost (data : TripResults) : float :=
  JsArray.reduce (fun sum leg => (sum + FlightLeg.price leg)%float) 0%float
                 (flights data).

(** The choice made in [getEmailSummary]. *)
Definition emailPriceAnalysis (data : TripResults) (previousPrice : option float)
  : PriceAnalysis :=
  let priceAnalysisPrompt := FirstSearch in
  match previousPrice with
  | Some p =>
      if truthy previousPrice then
        let difference := (totalFlightCost data - p)%float in
        if (0 <? difference)%float then PriceRose difference
        else if (difference <? 0)%float then PriceFell (abs difference)
        else PriceStable
      else priceAnalysisPrompt
  | None => priceAnalysisPrompt
  end.

(** The choice made in [getWhatsAppSummary]: the same tests select the
    WhatsApp wording. *)
Definition whatsAppPriceAnalysis (data : TripResults) (previousPrice : option float)
  : PriceAnalysis :=
  let priceAnalysisPrompt := FirstSearch in
  match previousPrice with
  | Some p =>
      if truthy previousPrice then
        let difference := (totalFlightCost data - p)%float in
        if (0 <? difference)%float then PriceRose difference
        else if (difference <? 0)%float then PriceFell (abs difference)
        else PriceStable
      else priceAnalysisPrompt
  | None => priceAnalysisPrompt
  end.

(** ** The change cell of the chart table *)

(** A child of a JSX element: literal text, or the text produced by
    [formatCurrency(amount)], which the engine's [Intl.NumberFormat]
    determines. *)
Inductive Child : Type :=
| Text (s : string)
| Currency (amount : float).

Record Span : Type := mkSpan
  { className : option string; children : list Child }.

Definition renderChange (change : option float) : Span :=
  match change with
  | None => {| className := None; children := [Text "-"] |}
  | Some c =>
      if (c =? 0)%float then {| className := None; children := [Currency 0] |}
      else
        let isPositive := (0 <? c)%float in
        {| className := Some (if isPositive then "price-increase" else "price-decrease")%string;
           children := [Text (if isPositive then "↑" else "↓"); Text " ";
                        Currency (abs c)] |}
  end.

(** The bracketed change of the bar tooltip. *)
Definition changeText (change : option float) : list Child :=
  match change with
  | Some c => [Text " ("; Text (if (0 <? c)%float then "+" else ""); Currency c; Text ")"]
  | None => []
  end.

(** ** Timestamps in append order *)

Section AppendOrder.
(** [notBefore a b]: timestamp [a] is no later than timestamp [b]. *)
Variable notBefore : string -> string -> Prop.

(** Each entry of [entries], appended in turn to [ledger], carries a
    timestamp no earlier than the one of the tail it is appended to. *)
Fixpoint appendedInOrder (ledger entries : list StoredSearch) : Prop :=
  match entries with
  | [] => True
  | x :: rest =>
      match JsArray.get ledger (length ledger - 1) with
      | Some tail => notBefore (timestamp tail) (timestamp x)
      | None => True
      end /\ appendedInOrder (updatedHistory ledger x) rest
  end.

Definition nonDecreasing (ledger : list StoredSearch) : Prop :=
  Sorted notBefore (List.map timestamp ledger).
End AppendOrder.

(** ** The application state and its two writers *)

Module App.

Definition errorDefault : string :=
  "Falha ao buscar opções de viagem. Por favor, tente novamente mais tarde.".
Definition emailFallback : string :=
  "Não foi possível gerar o resumo do e-mail no momento.".
Definition whatsAppFallback : string :=
  "Não foi possível gerar o resumo do WhatsApp.".
(** The message of the [TypeError] of reading [.to] of [undefined]. *)
Definition undefinedTo : string :=
  "Cannot read properties of undefined (reading 'to')".

(** The state variables of [App] that [handleSearch] writes, and the
    [searchHistory] item of [localStorage]. *)
Record State : Type := mkState
  { results : option TripResults;
    isLoading : bool;
    error : option string;
    searchHistory : list StoredSearch;
    emailSummary : option string;
    whatsappSummary : option string;
    localStorage : option string }.

(** What a summary prompt interpolates. *)
Record Prompt : Type := mkPrompt
  { priceAnalysisPrompt : PriceAnalysis; tripOfPrompt : TripResults }.

(** What the outside world answers during one search: the outcome of
    the model call and of parsing its reply in [getTripData], the
    clock, and the model's replies to the two summary prompts. *)
Record World : Type := mkWorld
  { tripReply : Outcome TripResults;
    now : string;
    emailReply : Prompt -> Outcome string;
    whatsAppReply : Prompt -> Outcome string }.

(** [x || y] on strings: the empty string is falsy. *)
Definition orElse (x y : string) : string :=
  match x with EmptyString => y | String _ _ => x end.

(** [getTripData]: any failure is rethrown as [Error(errorDefault)]. *)
Definition getTripData (w : World) : Outcome TripResults :=
  match tripReply w with
  | Returned data => Returned data
  | Thrown _ => Thrown errorDefault
  end.

(** [getEmailSummary]: a failed model call yields the fallback text. *)
Definition getEmailSummary (w : World) (data : TripResults)
           (previousPrice : option float) : Outcome string :=
  let prompt := {| priceAnalysisPrompt := emailPriceAnalysis data previousPrice;
                   tripOfPrompt := data |} in
  match emailReply w prompt with
  | Returned text => Returned text
  | Thrown _ => Returned emailFallback
  end.

(** [getWhatsAppSummary]: building the prompt reads
    [results.flights[results.flights.length - 1].to], outside the
    [try], which throws when there is no flight. *)
Definition getWhatsAppSummary (w : World) (data : TripResults)
           (previousPrice : option float) : Outcome string :=
  let analysis := whatsAppPriceAnalysis data previousPrice in
  match JsArray.get (flights data) (length (flights data) - 1) with
  | None => Thrown undefinedTo
  | Some _ =>
      let prompt := {| priceAnalysisPrompt := analysis; tripOfPrompt := data |} in
      match whatsAppReply w prompt with
      | Returned text => Returned text
      | Thrown _ => Returned whatsAppFallback
      end
  end.

(** [await Promise.all([a, b])] *)
Definition promiseAll (a b : Outcome string) : Outcome (string * string) :=
  match a, b with
  | Returned x, Returned y => Returned (x, y)
  | Thrown m, _ => Thrown m
  | Returned _, Thrown m => Thrown m
  end.

(** What the mount effect reads and writes: the value held by the
    [searchHistory] state, which is whatever [JSON.parse] returned
    once [setSearchHistory] got it, and the stored item. *)
Record Mounted : Type := mkMounted
  { history : jsval; storedHistory : option string }.

(** [useState<StoredSearch[]>([])] *)
Definition initialHistory : jsval := JArr [].

Definition tryCatch (A : Type) (body : Outcome A) (handler : string -> Outcome A)
  : Outcome A :=
  match body with
  | Returned a => Returned a
  | Thrown message => handler message
  end.

Section WithEngine.
Context {E : Engine}.

(** One run of [handleSearch], from the click to the [finally].  The
    [searchHistory] of the closure and the [prevHistory] of the updater
    are the same array: the button is disabled while a search runs. *)
Definition handleSearch (w : World) (s : State) : State :=
  (* setIsLoading(true); setError(null); setResults(null); ... *)
  let history := searchHistory s in
  let stored := localStorage s in
  match getTripData w with
  | Thrown message =>
      (* catch: setError(err.message || errorDefault); finally *)
      {| results := None; isLoading := false;
         error := Some (orElse message errorDefault);
         searchHistory := history;
         emailSummary := None; whatsappSummary := None;
         localStorage := stored |}
  | Returned data =>
      let previousPrice := previousPrice history in
      let email := getEmailSummary w data previousPrice in
      let whatsapp := getWhatsAppSummary w data previousPrice in
      let totalFlightPrice := totalFlightCost data in
      let newHistoryEntry := mkStoredSearch (now w) totalFlightPrice data in
      let updatedHistory := updatedHistory history newHistoryEntry in
      let stored' := Some (JSON.stringify (ledgerToJS updatedHistory)) in
      match promiseAll email whatsapp with
      | Thrown message =>
          {| results := Some data; isLoading := false;
             error := Some (orElse message errorDefault);
             searchHistory := updatedHistory;
             emailSummary := None; whatsappSummary := None;
             localStorage := stored' |}
      | Returned (emailText, whatsappText) =>
          {| results := Some data; isLoading := false; error := None;
             searchHistory := updatedHistory;
             emailSummary := Some emailText;
             whatsappSummary := Some whatsappText;
             localStorage := stored' |}
      end
  end.

(** The effect run once at mount. *)
Definition loadHistory (m : Mounted) : Outcome Mounted :=
  tryCatch
    (match storedHistory m with
     | Some (String _ _ as text) =>
         match JSON.parse text with
         | Returned parsed =>
             Returned {| history := parsed; storedHistory := storedHistory m |}
         | Thrown message => Thrown message
         end
     | Some EmptyString | None => Returned m
     end)
    (fun _ => Returned {| history := history m; storedHistory := None |}).

(** The state after a sequence of searches, one world per search. *)
Definition runSearches (worlds : list World) (s : State) : State :=
  fold_left (fun s w => handleSearch w s) worlds s.

(** The clock of every search that returns trip data reads no earlier
    than the timestamp of the newest stored search at that moment. *)
Fixpoint clockInOrder (notBefore : string -> string -> Prop)
         (s : State) (worlds : list World) : Prop :=
  match worlds with
  | [] => True
  | w :: rest =>
      match tripReply w,
            JsArray.get (searchHistory s) (length (searchHistory s) - 1) with
      | Returned _, Some tail => notBefore (timestamp tail) (now w)
      | _, _ => True
      end /\ clockInOrder notBefore (handleSearch w s) rest
  end.
End WithEngine.

(** The state of a fresh session with nothing stored. *)
Definition initialState : State :=
  {| results := None; isLoading := false; error := None; searchHistory := [];
     emailSummary := None; whatsappSummary := None; localStorage := None |}.

(** The messages of the two [TypeError]s of calling [map] on a value
    that has none. *)
Definition nullMap : string :=
  "Cannot read properties of null (reading 'map')".
Definition mapNotAFunction : string := "searchHistory.map is not a function".

(** The receiver of [searchHistory.map(...)] in the body of [App], run
    at every render, on the value the mount effect installed: the
    elements the callback is applied to.  [null] has no property to
    read; a number, a string, a boolean and an object have no [map]
    that is a function, an object not even when a [map] key was stored,
    its value being no function. *)
Definition mapReceiver (history : jsval) : Outcome (list jsval) :=
  match history with
  | JArr items => Returned items
  | JNull => Thrown nullMap
  | JBool _ | JNum _ | JStr _ | JObj _ => Thrown mapNotAFunction
  end.
End App.

(** ** An engine for whole numbers *)

(** A sample engine for the examples: it writes a whole number in
    decimal digits and reads a signed digit string.  On the integers
    below 2^53 in magnitude it writes what every engine writes, and
    reads it back. *)
Module WholeNumbers.
Definition toZ (x : float) : Z :=
  match Prim2SF x with
  | S754_finite s m e =>
      let magnitude :=
        if (0 <=? e)%Z then (Z.pos m * 2 ^ e)%Z else (Z.pos m / 2 ^ (- e))%Z in
      if s then (- magnitude)%Z else magnitude
  | _ => 0%Z
  end.

Definition ofZ (z : Z) : float := SF2Prim (binary_normalize prec emax z 0 false).

Definition engine : Engine :=
  {| NumberToString := fun x => NilZero.string_of_int (Z.to_int (toZ x));
     StringToNumber := fun token =>
       match NilZero.int_of_string token with
       | Some digits => Some (ofZ (Z.of_int digits))
       | None => None
       end |}.
End WholeNumbers.

(** ** Sample data for the worked examples *)

Module Sample.
(** A payload whose flight costs [p]. *)
Definition trip (p : float) : TripResults :=
  {| flights := [FlightLeg.mk "GRU" "LIS" "TAP" "2025-03-01 22:10"
                              "2025-03-02 11:40" p];
     accommodations := [HotelStay.mk "Lisboa" "Hotel Avenida" 4 150 "2025-03-02"] |}.

Definition search (t : string) (p : float) : StoredSearch := searchOf t p (trip p).

(** Eight searches on eight consecutive days. *)
Definition eightSearches : list StoredSearch :=
  [search "2025-01-01T09:00:00.000Z" 200; search "2025-01-02T09:00:00.000Z" 180;
   search "2025-01-03T09:00:00.000Z" 180; search "2025-01-04T09:00:00.000Z" 250;
   search "2025-01-05T09:00:00.000Z" 260; search "2025-01-06T09:00:00.000Z" 240;
   search "2025-01-07T09:00:00.000Z" 230; search "2025-01-08T09:00:00.000Z" 210].

Definition firstSeven : list StoredSearch := firstn 7 eightSearches.
Definition eighth : StoredSearch := search "2025-01-08T09:00:00.000Z" 210.

(** The ledger after the eight appends: seven entries. *)
Definition ledger : list StoredSearch := appendAll [] eightSearches.

(** A search whose payload holds a price per night beyond the range
    of the doubles, which [JSON.parse] reads as [Infinity]. *)
Definition unboundedStay : StoredSearch :=
  searchOf "2025-01-01T09:00:00.000Z" 200
    {| flights := [FlightLeg.mk "GRU" "LIS" "TAP" "2025-03-01 22:10"
                                "2025-03-02 11:40" 200];
       accommodations := [HotelStay.mk "Lisboa" "Hotel Avenida" 4 infinity
                                       "2025-03-02"] |}.

(** What comes back for it from the stored text: the price per night
    is [null]. *)
Definition unboundedStayReadBack : jsval :=
  JArr [JObj [("timestamp", JStr "2025-01-01T09:00:00.000Z");
              ("totalFlightPrice", JNum 200);
              ("results",
               JObj [("flights",
                      JArr [JObj [("from", JStr "GRU"); ("to", JStr "LIS");
                                  ("airline", JStr "TAP");
                                  ("departure", JStr "2025-03-01 22:10");
                                  ("arrival", JStr "2025-03-02 11:40");
                                  ("price", JNum 200)]]);
                     ("accommodations",
                      JArr [JObj [("city", JStr "Lisboa");
                                  ("name", JStr "Hotel Avenida");
                                  ("days", JNum 4);
                                  ("pricePerNight", JNull);
                                  ("checkInDate", JStr "2025-03-02")]])])]]%string.

(** Timestamps written by [toISOString] compare as strings. *)
Definition notBefore (a b : string) : Prop := (a <=? b)%string = true.

(** A world in which the trip search fails. *)
Definition offline : App.World :=
  {| App.tripReply := Thrown "Failed to fetch"%string;
     App.now := "2025-01-09T09:00:00.000Z";
     App.emailReply := fun _ => Returned "email"%string;
     App.whatsAppReply := fun _ => Returned "whatsapp"%string |}.

Definition beforeSearch : App.State :=
  {| App.results := None; App.isLoading := false; App.error := None;
     App.searchHistory := ledger;
     App.emailSummary := None; App.whatsappSummary := None;
     App.localStorage := Some (@JSON.stringify WholeNumbers.engine (ledgerToJS ledger)) |}.
End Sample.

(* ================================================================== *)
(** * The rest of the component: sessions, chart, export, links,
      message formatting, passenger counts *)
(* ================================================================== *)

(** ** More primitives of the engine *)

Module JsString.
(** [s.split(' ')[0]]: the characters before the first space. *)
Fixpoint firstWord (s : string) : string :=
  match s with
  | EmptyString => EmptyString
  | String c rest => if (c =? " ")%char then EmptyString else String c (firstWord rest)
  end.

(** [s.split(sep)] for a separator of one character: the part before
    the first separator, and the parts after it. *)
Fixpoint splitAt (sep : ascii) (s : string) : string * list string :=
  match s with
  | EmptyString => (EmptyString, [])
  | String c rest =>
      let (first, others) := splitAt sep rest in
      if (c =? sep)%char then (EmptyString, first :: others)
      else (String c first, others)
  end.

Definition split (sep : ascii) (s : string) : list string :=
  let (first, others) := splitAt sep s in first :: others.

(** [parts.join(sep)] *)
Fixpoint join (sep : string) (parts : list string) : string :=
  match parts with
  | [] => ""
  | [part] => part
  | part :: rest => part ++ sep ++ join sep rest
  end%string.

(** [s.replace(/\n/g, replacement)] *)
Fixpoint replaceNewlines (replacement : string) (s : string) : string :=
  match s with
  | EmptyString => EmptyString
  | String c rest =>
      if (c =? "010")%char then (replacement ++ replaceNewlines replacement rest)%string
      else String c (replaceNewlines replacement rest)
  end.

(** [s.replace(/d([^d]+)d/g, opening + '$1' + closing)] for a
    delimiter character [d], read from left to right.  [pending] is
    the run read since a delimiter that may still open a match: a
    second delimiter closes the match when the run is not empty, and
    otherwise takes the place of the first, which stays as it is; a
    run that reaches the end was no match. *)
Fixpoint replaceDelimited (d : ascii) (opening closing : string)
         (pending : option string) (s : string) : string :=
  match s, pending with
  | EmptyString, None => EmptyString
  | EmptyString, Some run => String d run
  | String c rest, None =>
      if (c =? d)%char then replaceDelimited d opening closing (Some EmptyString) rest
      else String c (replaceDelimited d opening closing None rest)
  | String c rest, Some run =>
      if (c =? d)%char then
        match run with
        | EmptyString =>
            String d (replaceDelimited d opening closing (Some EmptyString) rest)
        | String _ _ =>
            (opening ++ run ++ closing
               ++ replaceDelimited d opening closing None rest)%string
        end
      else replaceDelimited d opening closing (Some (run ++ String c "")%string) rest
  end.

(** The string has no occurrence of the character. *)
Definition lacks (c : ascii) (s : string) : bool :=
  allChars (fun x => negb (x =? c)%char) s.
End JsString.

Module JsMath.
(** One comparison of [Math.max]: [NaN] if one of the two is, else the
    larger, with [+0] above [-0]. *)
Definition higher (highest number : float) : float :=
  if is_nan highest || is_nan number then nan
  else if (highest <? number)%float
          || (is_zero number && negb (get_sign number)
              && is_zero highest && get_sign highest)
       then number else highest.

(** [Math.max(...values)]: the values are compared in turn, starting
    from [-Infinity]. *)
Definition max (values : list float) : float :=
  fold_left higher values neg_infinity.
End JsMath.

(** What the host's locale decides: the three date formats of the
    component, each applied to an ISO timestamp. *)
Class Locale : Type :=
  { (** [toLocaleDateString('pt-BR', { month: 'short', day: 'numeric' })] *)
    shortDate : string -> string;
    (** [toLocaleDateString('pt-BR')] *)
    fullDate : string -> string;
    (** [toLocaleString('pt-BR')] *)
    dateTime : string -> string }.

(** ** Sessions *)

(** The entry a search appends, if its trip search returns. *)
Definition entryOf (w : App.World) : option StoredSearch :=
  match App.tripReply w with
  | Returned data => Some (mkStoredSearch (App.now w) (totalFlightCost data) data)
  | Thrown _ => None
  end.

Definition entriesOf (worlds : list App.World) : list StoredSearch :=
  flat_map (fun w => match entryOf w with Some e => [e] | None => [] end) worlds.

(** [results?.flights.reduce((sum, leg) => sum + leg.price, 0) ?? 0],
    the total on the screen. *)
Definition displayedTotal (s : App.State) : float :=
  match App.results s with
  | Some data => totalFlightCost data
  | None => 0%float
  end.

(** The stored item is the text of the history, which is then not
    empty, or nothing is stored and the history is empty. *)
Definition inSync {E : Engine} (s : App.State) : Prop :=
  match App.localStorage s with
  | Some text =>
      text = JSON.stringify (ledgerToJS (App.searchHistory s)) /\
      App.searchHistory s <> []
  | None => App.searchHistory s = []
  end.

(** ** [PriceChart] *)

Module PriceChart.
(** One bar: its height in percent, the pieces of its tooltip, its label. *)
Record Bar : Type := mkBar
  { heightPercent : float; tooltip : list Child; barLabel : string }.

(** One row of the table: date, price, variation. *)
Record Row : Type := mkRow
  { dateCell : string; priceCell : Child; variationCell : Span }.

Record Chart : Type := mkChart { bars : list Bar; rows : list Row }.

Section WithLocale.
Context {L : Locale}.

(** [Math.max(...history.map(item => item.price), 0)] *)
Definition maxPrice (history : list PriceHistoryPoint) : float :=
  JsMath.max (List.map price history ++ [0%float]).

Definition bar (maxPrice : float) (item : PriceHistoryPoint) : Bar :=
  let heightPercent :=
    if (0 <? maxPrice)%float then (price item / maxPrice * 100)%float else 0%float in
  let dateLabel := shortDate (date item) in
  {| heightPercent := heightPercent;
     tooltip := [Currency (price item); Text " "; Text "em"; Text " "; Text dateLabel]
                  ++ changeText (change item);
     barLabel := dateLabel |}.

Definition row (item : PriceHistoryPoint) : Row :=
  {| dateCell := fullDate (date item);
     priceCell := Currency (price item);
     variationCell := renderChange (change item) |}.

(** The component: [null] for an empty history, else the bars in the
    order of the history and the rows of [history.slice().reverse()]. *)
Definition render (history : list PriceHistoryPoint) : option Chart :=
  match history with
  | [] => None
  | _ :: _ =>
      Some {| bars := List.map (bar (maxPrice history)) history;
              rows := List.map row (rev history) |}
  end.
End WithLocale.
End PriceChart.

(** ** Flight links and the export *)

(** The link of [FlightCard]. *)
Definition flightSearchUrl (leg : FlightLeg.t) : string :=
  let departureDateForUrl :=
    App.orElse (JsString.firstWord (FlightLeg.departure leg)) "" in
  let origin := JsString.firstWord (FlightLeg.from leg) in
  let destination := JsString.firstWord (FlightLeg.to leg) in
  ("https://www.google.com/flights#flt=" ++ origin ++ "." ++ destination ++ "."
     ++ departureDateForUrl ++ ";c:BRL;e:1;sd:1;t:f")%string.

Module CsvExport.
Definition headers : list string :=
  ["Data da Busca"; "Origem"; "Destino"; "Companhia Aérea";
   "Data Partida"; "Data Chegada"; "Preço (BRL)"; "Link Direto"]%string.

Definition emptyAlert : string := "Não há histórico de busca para exportar.".
Definition fileName : string := "historico_viagens_ernest.csv".

(** What a click on the export button does. *)
Inductive Effect : Type :=
| Alert (message : string)
| Download (name : string) (csvString : string).

Section WithHost.
Context {E : Engine} {L : Locale}.

(** A number among the strings of [row.join(',')]. *)
Definition numberText (x : float) : string :=
  if is_nan x then "NaN"%string
  else if is_infinity x then (if (x <? 0)%float then "-Infinity" else "Infinity")%string
  else NumberToString x.

Definition quoted (s : string) : string :=
  String JSON.DQUOTE (s ++ String JSON.DQUOTE "")%string.

(** The link of the export, built as in [FlightCard]. *)
Definition exportUrl (leg : FlightLeg.t) : string :=
  let departureDateForUrl :=
    App.orElse (JsString.firstWord (FlightLeg.departure leg)) "" in
  let origin := JsString.firstWord (FlightLeg.from leg) in
  let destination := JsString.firstWord (FlightLeg.to leg) in
  ("https://www.google.com/flights#flt=" ++ origin ++ "." ++ destination ++ "."
     ++ departureDateForUrl ++ ";c:BRL;e:1;sd:1;t:f")%string.

Definition rowOf (searchDate : string) (leg : FlightLeg.t) : string :=
  JsString.join ","
    [searchDate; quoted (FlightLeg.from leg); quoted (FlightLeg.to leg);
     quoted (FlightLeg.airline leg); FlightLeg.departure leg; FlightLeg.arrival leg;
     numberText (FlightLeg.price leg); exportUrl leg].

(** The two nested [forEach], each pushing onto [csvRows]. *)
Definition pushSearch (csvRows : list string) (search : StoredSearch) : list string :=
  let searchDate := dateTime (timestamp search) in
  fold_left (fun csvRows leg => csvRows ++ [rowOf searchDate leg])
            (flights (results search)) csvRows.

Definition csvRows (searchHistory : list StoredSearch) : list string :=
  fold_left pushSearch searchHistory [JsString.join "," headers].

Definition handleExportToCSV (searchHistory : list StoredSearch) : Effect :=
  if length searchHistory =? 0 then Alert emptyAlert
  else Download fileName (JsString.join (String "010" "") (csvRows searchHistory)).
End WithHost.
End CsvExport.

(** ** The e-mail preview *)

(** The child of one [<p>] of [EmailPreviewCard]: the line, or [<br />]
    for an empty line. *)
Inductive Paragraph : Type :=
| Line (text : string)
| Break.

Definition emailParagraphs (summary : string) : list Paragraph :=
  List.map (fun line => match line with
                        | EmptyString => Break
                        | String _ _ => Line line
                        end)
           (JsString.split "010" summary).

(** The text of the paragraphs, one per line. *)
Definition paragraphText (p : Paragraph) : string :=
  match p with Line text => text | Break => EmptyString end.

(** ** The WhatsApp preview *)

Definition formatWhatsAppMessage (text : string) : string :=
  JsString.replaceDelimited "_" "<em>" "</em>" None
    (JsString.replaceDelimited "*" "<strong>" "</strong>" None text).

(** The markup given to [dangerouslySetInnerHTML]. *)
Definition whatsAppHtml (summary : string) : string :=
  JsString.replaceNewlines "<br />" (formatWhatsAppMessage summary).

(** ** The share links *)

Module JsUri.




End JsUri.



(** ** Passenger counts *)

(** [onDecrement] of the two [PassengerControl]s. *)
Definition decrementAdults (adults : float) : float :=
  JsMath.max [1; adults - 1]%float.
Definition decrementChildren (children : float) : float :=
  JsMath.max [0; children - 1]%float.

(** Text without the two markers of [formatWhatsAppMessage]. *)
Definition unmarked (s : string) : bool :=
  JsString.lacks "*" s && JsString.lacks "_" s.

(** ** A sample session *)

Module SampleSession.
(** A world in which the trip search returns one flight of price [p]
    at time [t] and both summary calls fail. *)
Definition online (t : string) (p : float) : App.World :=
  {| App.tripReply := Returned (Sample.trip p);
     App.now := t;
     App.emailReply := fun _ => Thrown "429"%string;
     App.whatsAppReply := fun _ => Thrown "429"%string |}.

(** Three searches, the second of them offline. *)
Definition worlds : list App.World :=
  [online "2025-01-09T09:00:00.000Z" 200; Sample.offline;
   online "2025-01-10T09:00:00.000Z" 180]%string.

(** The locale leaves the timestamps as they are. *)
Definition locale : Locale :=
  {| shortDate := fun iso => iso; fullDate := fun iso => iso;
     dateTime := fun iso => iso |}.

Definition zeroPoint : PriceHistoryPoint :=
  {| date := "2025-01-09T09:00:00.000Z"; price := 0; change := None |}.
End SampleSession.

(** ** Proof automation *)

(** Case analysis on the 256 characters. *)
Ltac each_char c := destruct c as [[] [] [] [] [] [] [] []].

(** Arithmetic with quotients and remainders by constants. *)
Ltac divmod := zify; Z.to_euclidean_division_equations; lia.

(** The keys of an object literal are pairwise distinct. *)
Ltac distinct_keys :=
  simpl; repeat (constructor; [simpl; intuition discriminate|]); constructor.

(* ================================================================== *)
(** * Properties *)
(* ================================================================== *)

(** ** Array primitives *)

Lemma slice_last7 (A : Type) (arr : list A) :
  JsArray.slice (-7) arr = skipn (length arr - 7) arr.
Proof.
  unfold JsArray.slice. cbv zeta.
  replace (-7 <? 0)%Z with true by reflexivity.
  f_equal. lia.
Qed.

Lemma get_last (A : Type) (pre : list A) (x : A) :
  JsArray.get (pre ++ [x]) (length (pre ++ [x]) - 1) = Some x.
Proof.
  unfold JsArray.get. rewrite length_app. simpl.
  replace (length pre + 1 - 1) with (length pre) by lia.
  rewrite nth_error_app2 by lia. now rewrite Nat.sub_diag.
Qed.

(** ** The append-and-cap update *)

Lemma updatedHistory_suffix prev x :
  updatedHistory prev x = skipn (length prev - 6) prev ++ [x].
Proof.
  unfold updatedHistory. rewrite slice_last7, length_app. simpl.
  rewrite skipn_app.
  replace (length prev + 1 - 7) with (length prev - 6) by lia.
  replace (length prev - 6 - length prev) with 0 by lia.
  reflexivity.
Qed.

Lemma updatedHistory_length prev x :
  length (updatedHistory prev x) = Nat.min (length prev + 1) 7.
Proof.
  rewrite updatedHistory_suffix, length_app, length_skipn. simpl. lia.
Qed.

Lemma updatedHistory_below prev x :
  length prev < 7 -> updatedHistory prev x = prev ++ [x].
Proof.
  intros H. rewrite updatedHistory_suffix.
  replace (length prev - 6) with 0 by lia. reflexivity.
Qed.

Lemma updatedHistory_full prev x :
  length prev = 7 -> updatedHistory prev x = tl prev ++ [x].
Proof.
  intros H. rewrite updatedHistory_suffix, H.
  destruct prev; [discriminate | reflexivity].
Qed.

Lemma updatedHistory_newest prev x :
  JsArray.get (updatedHistory prev x) (length (updatedHistory prev x) - 1) = Some x.
Proof. rewrite updatedHistory_suffix. apply get_last. Qed.

Lemma appendAll_snoc start entries x :
  appendAll start (entries ++ [x]) = updatedHistory (appendAll start entries) x.
Proof. unfold appendAll. now rewrite fold_left_app. Qed.

Lemma appendAll_length start entries :
  length start <= 7 -> length (appendAll start entries) <= 7.
Proof.
  intros Hs. induction entries as [|x entries IH] using rev_ind; [exact Hs|].
  rewrite appendAll_snoc, updatedHistory_length. lia.
Qed.

(** ** The baseline query and the derived series *)

Lemma previousPrice_snoc pre x :
  previousPrice (pre ++ [x]) = Some (totalFlightPrice x).
Proof.
  unfold previousPrice. rewrite get_last.
  rewrite length_app. simpl.
  replace (0 <? length pre + 1) with true; [reflexivity|].
  symmetry. apply Nat.ltb_lt. lia.
Qed.

Lemma chartPoint_first item rest :
  chartPoint item 0 (item :: rest)
  = Some {| date := timestamp item; price := totalFlightPrice item; change := None |}.
Proof. reflexivity. Qed.

Lemma chartPoint_later pre y item rest :
  chartPoint item (length (pre ++ [y])) ((pre ++ [y]) ++ item :: rest)
  = Some {| date := timestamp item; price := totalFlightPrice item;
            change := Some (totalFlightPrice item - totalFlightPrice y)%float |}.
Proof.
  unfold chartPoint, JsArray.get.
  rewrite length_app. simpl.
  replace (0 <? length pre + 1) with true by (symmetry; apply Nat.ltb_lt; lia).
  replace (length pre + 1 - 1) with (length pre) by lia.
  rewrite <- app_assoc. rewrite nth_error_app2 by lia.
  rewrite Nat.sub_diag. reflexivity.
Qed.

Lemma chart_from pre rest :
  JsArray.map_from chartPoint (pre ++ rest) (length pre) rest
  = Some (deltaSeries (previousPrice pre) rest).
Proof.
  revert pre. induction rest as [|item rest IH]; intros pre; [reflexivity|].
  cbn [JsArray.map_from deltaSeries].
  assert (Hpt : chartPoint item (length pre) (pre ++ item :: rest)
                = Some {| date := timestamp item; price := totalFlightPrice item;
                          change := option_map (fun p => (totalFlightPrice item - p)%float)
                                               (previousPrice pre) |}).
  { destruct pre as [|a pre'] using rev_ind.
    - apply chartPoint_first.
    - rewrite chartPoint_later, previousPrice_snoc. reflexivity. }
  rewrite Hpt.
  specialize (IH (pre ++ [item])).
  rewrite <- app_assoc, length_app in IH. simpl in IH.
  rewrite Nat.add_1_r in IH. rewrite IH, previousPrice_snoc. reflexivity.
Qed.

Lemma priceHistoryForChart_deltaSeries searchHistory :
  priceHistoryForChart searchHistory = Some (deltaSeries None searchHistory).
Proof. exact (chart_from [] searchHistory). Qed.

Lemma deltaSeries_length previous entries :
  length (deltaSeries previous entries) = length entries.
Proof.
  revert previous. induction entries as [|e es IH]; intros; simpl; [|rewrite IH]; reflexivity.
Qed.

Lemma deltaSeries_nth entries :
  forall previous i item,
    nth_error entries i = Some item ->
    exists point,
      nth_error (deltaSeries previous entries) i = Some point /\
      date point = timestamp item /\
      price point = totalFlightPrice item /\
      match i with
      | 0 => change point
             = option_map (fun p => (totalFlightPrice item - p)%float) previous
      | S j => exists prev,
          nth_error entries j = Some prev /\
          change point = Some (totalFlightPrice item - totalFlightPrice prev)%float
      end.
Proof.
  induction entries as [|e es IH]; intros previous i item Hi.
  - destruct i; discriminate.
  - destruct i as [|i]; simpl in Hi.
    + injection Hi as ->. eexists. simpl. repeat split; reflexivity.
    + destruct (IH (Some (totalFlightPrice e)) i item Hi) as (pt & Hpt & Hd & Hp & Hc).
      exists pt. simpl. repeat split; try assumption.
      destruct i as [|i].
      * exists e. split; [reflexivity|]. exact Hc.
      * destruct Hc as (prev & Hprev & Hc). exists prev. split; assumption.
Qed.

(** ** Strings *)

Lemma append_assoc (a b c : string) : ((a ++ b) ++ c = a ++ (b ++ c))%string.
Proof. induction a as [|x a IH]; simpl; [reflexivity | now rewrite IH]. Qed.

Lemma append_nil_r (a : string) : (a ++ "")%string = a.
Proof. induction a as [|x a IH]; simpl; [reflexivity | now rewrite IH]. Qed.

Lemma length_append (a b : string) :
  String.length (a ++ b) = String.length a + String.length b.
Proof. induction a as [|x a IH]; simpl; [reflexivity | now rewrite IH]. Qed.

(** ** JSON: the parser reads back what was written *)

Module JSONFacts.
Import JSON JSONShape.
Local Open Scope string_scope.

(** *** First characters *)

Lemma numberChar_opening c : isNumberChar c = true -> opening c = true.
Proof. each_char c; intros H; try discriminate H; reflexivity. Qed.

Lemma numberChar_dispatch c :
  isNumberChar c = true ->
  (c =? "[")%char = false /\ (c =? "{")%char = false /\
  (c =? DQUOTE)%char = false /\ (c =? "n")%char = false /\
  (c =? "t")%char = false /\ (c =? "f")%char = false.
Proof. each_char c; intros H; try discriminate H; repeat split. Qed.

Lemma skipWs_opening c rest :
  opening c = true -> skipWs (String c rest) = String c rest.
Proof.
  unfold opening. intros H. simpl.
  destruct (isWhitespace c); [discriminate H | reflexivity].
Qed.

(** *** String literals *)

Lemma parseChars_quoteChar c rest :
  parseChars (quoteChar c ++ rest)
  = match parseChars rest with
    | Some (str, after) => Some (String c str, after)
    | None => None
    end.
Proof. each_char c; reflexivity. Qed.

(** A byte of text outside ASCII is read as it is. *)
Lemma parseChars_high_byte b rest :
  (128 <=? N_of_ascii b)%N = true ->
  parseChars (String b rest)
  = match parseChars rest with
    | Some (str, after) => Some (String b str, after)
    | None => None
    end.
Proof. each_char b; intros H; try discriminate H; reflexivity. Qed.

Lemma hexValue_hexDigit k : k < 16 -> hexValue (hexDigit k) = Some k.
Proof.
  intros H. do 16 (destruct k as [|k]; [reflexivity|]). lia.
Qed.

Lemma parseChars_escape h1 h2 h3 h4 a b c d rest :
  hexValue h1 = Some a -> hexValue h2 = Some b ->
  hexValue h3 = Some c -> hexValue h4 = Some d ->
  parseChars (String BACKSLASH (String "u"
                (String h1 (String h2 (String h3 (String h4 rest))))))
  = match parseChars rest with
    | Some (str, after) => Some (joinUnit (hexUnit a b c d) str, after)
    | None => None
    end.
Proof.
  intros Ha Hb Hc Hd.
  change (parseChars (String BACKSLASH (String "u"
             (String h1 (String h2 (String h3 (String h4 rest)))))))
    with (match hexValue h1, hexValue h2, hexValue h3, hexValue h4 with
          | Some a, Some b, Some c', Some d =>
              match parseChars rest with
              | Some (str, after) => Some (joinUnit (hexUnit a b c' d) str, after)
              | None => None
              end
          | _, _, _, _ => None
          end).
  now rewrite Ha, Hb, Hc, Hd.
Qed.

Lemma parseChars_unicodeEscape n rest :
  (n < 65536)%N ->
  parseChars (unicodeEscape n ++ rest)
  = match parseChars rest with
    | Some (str, after) => Some (joinUnit n str, after)
    | None => None
    end.
Proof.
  intros Hn. unfold unicodeEscape. cbn [append].
  rewrite (@parseChars_escape _ _ _ _
             (N.to_nat (n / 4096)) (N.to_nat ((n / 256) mod 16))
             (N.to_nat ((n / 16) mod 16)) (N.to_nat (n mod 16)));
    try (apply hexValue_hexDigit; divmod).
  replace (hexUnit _ _ _ _) with n; [reflexivity|].
  unfold hexUnit. rewrite !N2Nat.id. divmod.
Qed.

(** What three bytes that hold a surrogate are. *)
Lemma surrogateOf_bytes b1 b2 b3 n :
  surrogateOf b1 b2 b3 = Some n ->
  (n < 65536)%N /\
  unitBytes n = String b1 (String b2 (String b3 "")) /\
  (128 <=? N_of_ascii b1)%N = true /\
  (128 <=? N_of_ascii b2)%N = true /\
  (128 <=? N_of_ascii b3)%N = true.
Proof.
  unfold surrogateOf.
  remember (55296 + (N_of_ascii b2 - 160) * 64 + (N_of_ascii b3 - 128))%N
    as value eqn:Hv.
  destruct (b1 =? "237")%char eqn:H1; [|discriminate].
  destruct (160 <=? N_of_ascii b2)%N eqn:H2; [|discriminate].
  destruct (N_of_ascii b2 <=? 191)%N eqn:H2'; [|discriminate].
  destruct (128 <=? N_of_ascii b3)%N eqn:H3; [|discriminate].
  destruct (N_of_ascii b3 <=? 191)%N eqn:H3'; [|discriminate].
  cbn [andb]. intros H. injection H as <-.
  apply Ascii.eqb_eq in H1. subst b1 value.
  apply N.leb_le in H2, H2', H3, H3'.
  split; [lia|]. split.
  - unfold unitBytes.
    replace (_ <? 128)%N with false by (symmetry; apply N.ltb_ge; lia).
    replace (_ <? 2048)%N with false by (symmetry; apply N.ltb_ge; lia).
    f_equal; [|f_equal; [|f_equal]].
    + replace (224 + _)%N with 237%N by divmod. reflexivity.
    + replace (128 + _)%N with (N_of_ascii b2) by divmod. apply ascii_N_embedding.
    + replace (128 + _)%N with (N_of_ascii b3) by divmod. apply ascii_N_embedding.
  - split; [reflexivity|]. split; [apply N.leb_le; lia | reflexivity].
Qed.

Lemma parseChars_quoteChars_upto n : forall s rest,
  String.length s <= n ->
  parseChars (quoteChars s ++ String DQUOTE rest) = Some (s, rest).
Proof.
  induction n as [|n IH]; intros s rest Hn;
    (destruct s as [|b1 s]; [reflexivity|]); [simpl in Hn; lia|].
  cbn [String.length] in Hn.
  assert (Hplain : parseChars ((quoteChar b1 ++ quoteChars s) ++ String DQUOTE rest)
                   = Some (String b1 s, rest))
    by (rewrite append_assoc, parseChars_quoteChar, IH by lia; reflexivity).
  cbn [quoteChars].
  destruct s as [|b2 [|b3 rest3]]; try exact Hplain.
  destruct (surrogateOf b1 b2 b3) as [unit|] eqn:Hu; [clear Hplain | exact Hplain].
  destruct (surrogateOf_bytes _ _ _ Hu) as (Hlt & Hbytes & Hb1 & Hb2 & Hb3).
  cbn [String.length] in Hn.
  assert (Hescaped : leadingLow rest3 = None \/ isHighSurrogate unit = false ->
                     parseChars ((unicodeEscape unit ++ quoteChars rest3)
                                   ++ String DQUOTE rest)
                     = Some (String b1 (String b2 (String b3 rest3)), rest)).
  { intros Hjoin. rewrite append_assoc, parseChars_unicodeEscape, IH by (exact Hlt || lia).
    unfold joinUnit.
    destruct Hjoin as [-> | ->]; [destruct (isHighSurrogate unit)|];
      now rewrite Hbytes. }
  cbv zeta.
  destruct (isHighSurrogate unit) eqn:Hh; [|apply Hescaped; now right].
  destruct rest3 as [|c1 [|c2 [|c3 rest6]]]; try (apply Hescaped; now left).
  destruct (surrogateOf c1 c2 c3) as [low|] eqn:Hl;
    [|apply Hescaped; left; cbn [leadingLow]; now rewrite Hl].
  destruct (isLowSurrogate low) eqn:Hll;
    [|apply Hescaped; left; cbn [leadingLow]; now rewrite Hl, Hll].
  destruct (surrogateOf_bytes _ _ _ Hl) as (_ & _ & Hc1 & Hc2 & Hc3).
  cbn [String.length] in Hn. cbn [append].
  rewrite !parseChars_high_byte by assumption.
  rewrite IH by lia. reflexivity.
Qed.

Lemma parseChars_quoteChars s rest :
  parseChars (quoteChars s ++ String DQUOTE rest) = Some (s, rest).
Proof. apply (@parseChars_quoteChars_upto (String.length s)). lia. Qed.

(** *** Number tokens *)

Lemma spanNumber_token token rest :
  allChars isNumberChar token = true -> delimited rest ->
  spanNumber (token ++ rest) = (token, rest).
Proof.
  intros Ht Hr. induction token as [|c token IH]; simpl in *.
  - destruct rest as [|d rest]; [reflexivity|].
    simpl in Hr. simpl. now rewrite Hr.
  - apply andb_true_iff in Ht as [Hc Ht]. rewrite Hc, (IH Ht). reflexivity.
Qed.

(** *** Arrays and objects *)

Section WithEngine.
Context {E : Engine}.

Lemma stringify_opening v :
  Faithful v ->
  exists c tail, stringify v = String c tail /\ opening c = true.
Proof.
  intros H. destruct H as [|b|x Hfin [Htok _]| s | items _ | props _ _]; simpl.
  - eexists _, _. split; reflexivity.
  - destruct b; eexists _, _; split; reflexivity.
  - unfold stringifyNumber. rewrite Hfin.
    destruct (NumberToString x) as [|c tail]; [discriminate Htok|].
    simpl in Htok. apply andb_true_iff in Htok as [Hc _].
    exists c, tail. split; [reflexivity | now apply numberChar_opening].
  - eexists _, _. split; reflexivity.
  - eexists _, _. split; reflexivity.
  - eexists _, _. split; reflexivity.
Qed.

Lemma commaSep_cons (part next : string) (rest : list string) :
  commaSep (part :: next :: rest) = part ++ "," ++ commaSep (next :: rest).
Proof. reflexivity. Qed.

Lemma parseElements_stringify pv items :
  Forall (parsesBack pv) items ->
  items <> [] ->
  forall n rest,
    length items <= n ->
    parseElements pv n (commaSep (List.map stringify items) ++ String "]" rest)
    = Some (items, rest).
Proof.
  induction 1 as [|v items Hv Hitems IH]; intros Hne n rest Hn; [congruence|].
  destruct n as [|n]; [simpl in Hn; lia|].
  destruct items as [|v' items].
  - cbn [List.map commaSep parseElements].
    rewrite Hv by reflexivity. reflexivity.
  - cbn [List.map]. rewrite commaSep_cons.
    cbn [parseElements]. rewrite !append_assoc.
    rewrite Hv by reflexivity.
    cbn [append skipWs isWhitespace Ascii.eqb Bool.eqb orb].
    cbn [List.map] in IH. rewrite IH; [reflexivity | discriminate | simpl in *; lia].
Qed.

Lemma parseMembers_stringify pv props :
  Forall (fun kv => parsesBack pv (snd kv)) props ->
  props <> [] ->
  forall n rest,
    length props <= n ->
    parseMembers pv n (commaSep (List.map memberText props) ++ String "}" rest)
    = Some (props, rest).
Proof.
  induction 1 as [|[k v] props Hv Hprops IH]; intros Hne n rest Hn; [congruence|].
  destruct n as [|n]; [simpl in Hn; lia|]. simpl in Hv.
  assert (Hkey : forall tail,
             parseMembers pv (S n) (memberText (k, v) ++ tail)
             = match pv (stringify v ++ tail) with
               | None => None
               | Some (v0, r3) =>
                   match skipWs r3 with
                   | String d r4 =>
                       if (d =? ",")%char then
                         match parseMembers pv n r4 with
                         | Some (ms, after) => Some ((k, v0) :: ms, after)
                         | None => None
                         end
                       else if (d =? "}")%char then Some ([(k, v0)], r4)
                       else None
                   | EmptyString => None
                   end
               end).
  { intros tail. unfold memberText, quote.
    cbn [parseMembers append skipWs isWhitespace Ascii.eqb Bool.eqb orb DQUOTE].
    rewrite !append_assoc. cbn [append].
    rewrite parseChars_quoteChars. reflexivity. }
  destruct props as [|kv' props].
  - cbn [List.map commaSep]. rewrite Hkey.
    rewrite Hv by reflexivity. reflexivity.
  - cbn [List.map]. rewrite commaSep_cons, append_assoc, Hkey.
    rewrite !append_assoc.
    rewrite Hv by reflexivity.
    cbn [append skipWs isWhitespace Ascii.eqb Bool.eqb orb].
    cbn [List.map] in IH. rewrite IH; [reflexivity | discriminate | simpl in *; lia].
Qed.

(** *** Properties of an object *)

Lemma setProperty_fresh props k v :
  ~ In k (List.map fst props) -> setProperty props (k, v) = (props ++ [(k, v)])%list.
Proof.
  induction props as [|[k' v'] props IH]; intros Hk; [reflexivity|].
  simpl in *. destruct (String.eqb_spec k' k) as [->|Hne].
  - exfalso. apply Hk. now left.
  - rewrite IH; [reflexivity|]. intros Hin. apply Hk. now right.
Qed.

Lemma fold_setProperty members : forall acc,
  NoDup (List.map fst (acc ++ members)%list) ->
  fold_left setProperty members acc = (acc ++ members)%list.
Proof.
  induction members as [|[k v] members IH]; intros acc Hnd; simpl.
  - now rewrite app_nil_r.
  - rewrite setProperty_fresh.
    + rewrite IH; rewrite <- app_assoc; [reflexivity | exact Hnd].
    + rewrite map_app in Hnd. simpl in Hnd.
      apply NoDup_remove_2 in Hnd. intros Hin. apply Hnd.
      apply in_or_app. now left.
Qed.

Lemma opening_inv c :
  opening c = true ->
  isWhitespace c = false /\ (c =? "]")%char = false /\ (c =? "}")%char = false.
Proof.
  unfold opening. intros H.
  apply andb_true_iff in H as [H H3]. apply andb_true_iff in H as [H1 H2].
  apply negb_true_iff in H1, H2, H3. auto.
Qed.

Lemma parseValue_array fuel text :
  startsValue text ->
  parseValue (S fuel) (String "[" text)
  = match parseElements (parseValue fuel) fuel text with
    | Some (items, after) => Some (JArr items, after)
    | None => None
    end.
Proof.
  intros (c & tail & -> & Hc). pose proof (opening_inv c Hc) as (_ & Hb & _).
  cbn [parseValue]. unfold parseValueWith. cbn [skipWs].
  change (isWhitespace "[") with false. cbv iota.
  change ("[" =? "[")%char with true. cbv iota.
  rewrite (skipWs_opening _ _ Hc), Hb. reflexivity.
Qed.

Lemma parseValue_object fuel text :
  startsValue text ->
  parseValue (S fuel) (String "{" text)
  = match parseMembers (parseValue fuel) fuel text with
    | Some (members, after) => Some (JObj (fold_left setProperty members []), after)
    | None => None
    end.
Proof.
  intros (c & tail & -> & Hc). pose proof (opening_inv c Hc) as (_ & _ & Hb).
  cbn [parseValue]. unfold parseValueWith. cbn [skipWs].
  change (isWhitespace "{") with false. cbv iota.
  change ("{" =? "[")%char with false. change ("{" =? "{")%char with true. cbv iota.
  rewrite (skipWs_opening _ _ Hc), Hb. reflexivity.
Qed.

Lemma commaSep_starts (first : string) (others : list string) (closing : string) :
  startsValue first -> startsValue (commaSep (first :: others) ++ closing).
Proof.
  intros (c & tail & -> & Hc).
  destruct others; cbn; eexists _, _; (split; [reflexivity | exact Hc]).
Qed.

Lemma weight_pos v : 1 <= weight v.
Proof. destruct v; simpl; lia. Qed.

Lemma list_sum_bounds (A : Type) (f : A -> nat) (l : list A) :
  (forall a, 1 <= f a) ->
  length l <= list_sum (List.map f l) /\
  Forall (fun a => f a <= list_sum (List.map f l)) l.
Proof.
  intros Hf. induction l as [|a l [IH1 IH2]]; simpl; [split; [lia | constructor]|].
  pose proof (Hf a). split; [lia|].
  constructor; [lia|]. eapply Forall_impl; [|exact IH2]. simpl. intros; lia.
Qed.

Lemma parseValue_stringify v :
  Faithful v -> forall fuel, weight v <= fuel -> parsesBack (parseValue fuel) v.
Proof.
  induction v as [|b|x|s|items IH|props IH] using jsval_ind;
    intros Hf fuel Hw rest Hrest;
    (destruct fuel as [|fuel]; [pose proof (weight_pos JNull); simpl in Hw; lia|]).
  - reflexivity.
  - destruct b; reflexivity.
  - inversion Hf as [| |? Hfin [Htok Hread]| | |]; subst.
    cbn [stringify]. unfold stringifyNumber. rewrite Hfin.
    pose proof (spanNumber_token (NumberToString x) rest) as Hspan.
    destruct (NumberToString x) as [|c tail] eqn:Etok; [discriminate Htok|].
    simpl in Htok. specialize (Hspan Htok Hrest).
    apply andb_true_iff in Htok as [Hc _].
    destruct (numberChar_dispatch c Hc) as (H1 & H2 & H3 & H4 & H5 & H6).
    cbn [append] in *. cbn [parseValue]. unfold parseValueWith.
    rewrite skipWs_opening by now apply numberChar_opening.
    rewrite H1, H2, H3, H4, H5, H6, Hc, Hspan, Hread. reflexivity.
  - cbn [stringify]. unfold quote. cbn [append parseValue]. unfold parseValueWith. cbn [skipWs].
    change (isWhitespace DQUOTE) with false. cbv iota.
    change (DQUOTE =? "[")%char with false. change (DQUOTE =? "{")%char with false.
    change (DQUOTE =? DQUOTE)%char with true. cbv iota.
    rewrite append_assoc. cbn [append]. rewrite parseChars_quoteChars. reflexivity.
  - inversion Hf as [| | | |? Hitems|]; subst.
    destruct items as [|v items]; [reflexivity|].
    cbn [stringify append]. rewrite append_assoc. cbn [append].
    assert (Hstart : startsValue (stringify v)).
    { inversion Hitems; subst.
      destruct (stringify_opening (v := v)) as (c & tail & Hs & Hc); [assumption|].
      exists c, tail. auto. }
    rewrite parseValue_array by (cbn [List.map]; now apply commaSep_starts).
    simpl in Hw. apply le_S_n in Hw.
    destruct (list_sum_bounds weight (v :: items) weight_pos) as [Hlen Hall].
    rewrite parseElements_stringify; [reflexivity| |discriminate|simpl in *; lia].
    rewrite Forall_forall in IH, Hitems, Hall. apply Forall_forall.
    intros e He. apply IH; [exact He | now apply Hitems|].
    specialize (Hall e He). simpl in *. lia.
  - inversion Hf as [| | | | |? Hnd Hprops]; subst.
    destruct props as [|[k v] props]; [reflexivity|].
    cbn [stringify append]. rewrite append_assoc. cbn [append].
    change (List.map _ ((k, v) :: props)) with (List.map memberText ((k, v) :: props)).
    assert (Hstart : startsValue (memberText (k, v))).
    { eexists _, _. split; reflexivity. }
    rewrite parseValue_object by (cbn [List.map]; now apply commaSep_starts).
    simpl in Hw. apply le_S_n in Hw.
    destruct (list_sum_bounds (fun kv => weight (snd kv)) ((k, v) :: props)
                (fun kv => weight_pos (snd kv))) as [Hlen Hall].
    rewrite parseMembers_stringify.
    + rewrite fold_setProperty by exact Hnd. reflexivity.
    + rewrite Forall_forall in IH, Hprops, Hall. apply Forall_forall.
      intros e He. apply IH; [exact He | now apply Hprops|].
      specialize (Hall e He). simpl in *. lia.
    + discriminate.
    + simpl in *. lia.
Qed.

Lemma commaSep_length parts :
  list_sum (List.map String.length parts) <= String.length (commaSep parts).
Proof.
  induction parts as [|part parts IH]; [reflexivity|].
  destruct parts as [|next parts].
  - simpl. lia.
  - rewrite commaSep_cons, !length_append. cbn [List.map list_sum fold_right] in *.
    change (String.length ",") with 1. lia.
Qed.

Lemma list_sum_le (A : Type) (f g : A -> nat) (l : list A) :
  Forall (fun a => f a <= g a) l ->
  list_sum (List.map f l) <= list_sum (List.map g l).
Proof. induction 1; simpl; lia. Qed.

Lemma weight_le_length v :
  Faithful v -> weight v <= String.length (stringify v).
Proof.
  induction v as [|b|x|s|items IH|props IH] using jsval_ind; intros Hf.
  - simpl. lia.
  - destruct b; simpl; lia.
  - inversion Hf as [| |? Hfin [Htok _]| | |]; subst.
    simpl. unfold stringifyNumber. rewrite Hfin.
    destruct (NumberToString x); [discriminate Htok | simpl; lia].
  - simpl. lia.
  - inversion Hf as [| | | |? Hitems|]; subst.
    cbn [stringify weight]. rewrite !length_append.
    pose proof (commaSep_length (List.map stringify items)) as Hlen.
    rewrite map_map in Hlen.
    assert (list_sum (List.map weight items)
            <= list_sum (List.map (fun v => String.length (stringify v)) items)).
    { apply list_sum_le. rewrite Forall_forall in *. auto. }
    simpl String.length. lia.
  - inversion Hf as [| | | | |? Hnd Hprops]; subst.
    cbn [stringify weight]. rewrite !length_append.
    pose proof (commaSep_length (List.map memberText props)) as Hlen.
    rewrite map_map in Hlen.
    assert (list_sum (List.map (fun kv => weight (snd kv)) props)
            <= list_sum (List.map (fun kv => String.length (memberText kv)) props)).
    { apply list_sum_le. rewrite Forall_forall in *.
      intros [k v] Hin. specialize (IH _ Hin (Hprops _ Hin)). simpl in IH.
      unfold memberText. rewrite !length_append. cbn [snd]. lia. }
    change (List.map _ props) with (List.map memberText props) at 2.
    simpl String.length. lia.
Qed.

(** Reading back what was written: for a value all of whose numbers
    are finite and read back by the engine and whose objects have
    distinct keys, [JSON.parse(JSON.stringify(v))] returns [v]. *)
Lemma parse_stringify v : Faithful v -> parse (stringify v) = Returned v.
Proof.
  intros Hf. unfold parse.
  pose proof (weight_le_length Hf) as Hw.
  pose proof (@parseValue_stringify v Hf (S (String.length (stringify v)))
                (le_S _ _ Hw) "" I) as Hp.
  rewrite append_nil_r in Hp. rewrite Hp. reflexivity.
Qed.
End WithEngine.
End JSONFacts.

(** ** JSON: the fuel of the parser *)

Module JSONFuel.
Import JSON JSONShape.

(** *** Every step of the parser moves forward *)

Lemma skipWs_length s : String.length (skipWs s) <= String.length s.
Proof.
  induction s as [|c s IH]; simpl; [lia|].
  destruct (isWhitespace c); simpl; lia.
Qed.

Lemma spanNumber_length s token after :
  spanNumber s = (token, after) ->
  String.length token + String.length after = String.length s.
Proof.
  revert token after. induction s as [|c s IH]; simpl; intros token after H.
  - injection H as <- <-. reflexivity.
  - destruct (isNumberChar c).
    + destruct (spanNumber s) as [t a]. injection H as <- <-.
      simpl. rewrite (IH t a eq_refl). reflexivity.
    + injection H as <- <-. reflexivity.
Qed.

Lemma stripPrefix_length word s after :
  stripPrefix word s = Some after ->
  String.length word + String.length after = String.length s.
Proof.
  revert s. induction word as [|a word IH]; intros [|b s] H; simpl in *;
    try discriminate.
  - now injection H as <-.
  - now injection H as <-.
  - destruct (a =? b)%char; [|discriminate]. rewrite (IH s H). reflexivity.
Qed.

Lemma parseChars_length_upto n : forall s str after,
  String.length s <= n ->
  parseChars s = Some (str, after) -> String.length after < String.length s.
Proof.
  induction n as [|n IH]; intros s str after Hn H;
    (destruct s as [|c rest]; [discriminate|]); [simpl in Hn; lia|].
  assert (Hjoin : forall (f : string -> string) (t : string),
             String.length t <= n ->
             match parseChars t with
             | Some (str0, after0) => Some (f str0, after0)
             | None => None
             end = Some (str, after) ->
             String.length after < String.length t).
  { intros f t Ht Hc. destruct (parseChars t) as [[str0 after0]|] eqn:Ep;
      [|discriminate]. injection Hc as _ <-. exact (IH t _ _ Ht Ep). }
  assert (Hcons : forall (c0 : ascii) (t : string),
             String.length t <= n ->
             match parseChars t with
             | Some (str0, after0) => Some (String c0 str0, after0)
             | None => None
             end = Some (str, after) ->
             String.length after < String.length t)
    by (intros c0; exact (Hjoin (String c0))).
  simpl in H, Hn.
  destruct (c =? DQUOTE)%char; [injection H as _ <-; simpl; lia|].
  destruct (c =? BACKSLASH)%char.
  - destruct rest as [|e rest']; [discriminate|]. simpl in Hn.
    repeat match type of H with
           | (if ?b then _ else _) = _ =>
               destruct b; [apply Hcons in H; simpl in *; lia|]
           end.
    destruct (e =? "u")%char; [|discriminate].
    destruct rest' as [|h1 [|h2 [|h3 [|h4 rest'']]]]; try discriminate.
    destruct (hexValue h1), (hexValue h2), (hexValue h3), (hexValue h4);
      try discriminate.
    apply (Hjoin (joinUnit _)) in H; simpl in *; lia.
  - destruct (nat_of_ascii c <? 32); [discriminate|].
    apply Hcons in H; simpl in *; lia.
Qed.

Lemma parseChars_length s str after :
  parseChars s = Some (str, after) -> String.length after < String.length s.
Proof. apply (@parseChars_length_upto (String.length s)). lia. Qed.

Section Containers.
Variable pv : string -> option (jsval * string).
Hypothesis pv_consumes : consumes pv.

Lemma parseElements_length n : forall s items after,
  parseElements pv n s = Some (items, after) ->
  String.length after < String.length s.
Proof.
  induction n as [|n IH]; intros s items after H; [discriminate|].
  simpl in H. destruct (pv s) as [[v r]|] eqn:Ev; [|discriminate].
  apply pv_consumes in Ev. pose proof (skipWs_length r) as Hr.
  destruct (skipWs r) as [|c r']; [discriminate|]. simpl in Hr.
  destruct (c =? ",")%char.
  - destruct (parseElements pv n r') as [[vs a]|] eqn:En; [|discriminate].
    injection H as _ <-. apply IH in En. lia.
  - destruct (c =? "]")%char; [|discriminate]. injection H as _ <-. lia.
Qed.

Lemma parseMembers_length n : forall s members after,
  parseMembers pv n s = Some (members, after) ->
  String.length after < String.length s.
Proof.
  induction n as [|n IH]; intros s members after H; [discriminate|].
  simpl in H. pose proof (skipWs_length s) as H0.
  destruct (skipWs s) as [|q r0]; [discriminate|]. simpl in H0.
  destruct (q =? DQUOTE)%char; [|discriminate].
  destruct (parseChars r0) as [[k r1]|] eqn:Ek; [|discriminate].
  apply parseChars_length in Ek. pose proof (skipWs_length r1) as H1.
  destruct (skipWs r1) as [|c r2]; [discriminate|]. simpl in H1.
  destruct (c =? ":")%char; [|discriminate].
  destruct (pv r2) as [[v r3]|] eqn:Ev; [|discriminate].
  apply pv_consumes in Ev. pose proof (skipWs_length r3) as H3.
  destruct (skipWs r3) as [|d r4]; [discriminate|]. simpl in H3.
  destruct (d =? ",")%char.
  - destruct (parseMembers pv n r4) as [[ms a]|] eqn:En; [|discriminate].
    injection H as _ <-. apply IH in En. lia.
  - destruct (d =? "}")%char; [|discriminate]. injection H as _ <-. lia.
Qed.
End Containers.

Section WithEngine.
Context {E : Engine}.

Lemma parseValue_consumes fuel : consumes (parseValue fuel).
Proof.
  induction fuel as [|fuel IH]; intros s v r H; [discriminate|].
  cbn [parseValue] in H. unfold parseValueWith in H.
  pose proof (skipWs_length s) as H0.
  destruct (skipWs s) as [|c t]; [discriminate|]. simpl in H0.
  destruct (c =? "[")%char.
  { pose proof (skipWs_length t) as H1.
    destruct (skipWs t) as [|c' t']; [discriminate|]. simpl in H1.
    destruct (c' =? "]")%char; [injection H as _ <-; lia|].
    destruct (parseElements _ _ _) as [[items after]|] eqn:Ep; [|discriminate].
    injection H as _ <-. apply (parseElements_length IH) in Ep. simpl in Ep. lia. }
  destruct (c =? "{")%char.
  { pose proof (skipWs_length t) as H1.
    destruct (skipWs t) as [|c' t']; [discriminate|]. simpl in H1.
    destruct (c' =? "}")%char; [injection H as _ <-; lia|].
    destruct (parseMembers _ _ _) as [[members after]|] eqn:Ep; [|discriminate].
    injection H as _ <-. apply (parseMembers_length IH) in Ep. simpl in Ep. lia. }
  destruct (c =? DQUOTE)%char.
  { destruct (parseChars t) as [[str after]|] eqn:Ep; [|discriminate].
    injection H as _ <-. apply parseChars_length in Ep. lia. }
  assert (Hword : forall word (val : jsval),
             word <> EmptyString ->
             option_map (fun after => (val, after)) (stripPrefix word (String c t))
             = Some (v, r) ->
             String.length r < String.length s).
  { intros word val Hne Hw.
    destruct (stripPrefix word (String c t)) as [after|] eqn:Es; [|discriminate].
    injection Hw as _ <-. apply stripPrefix_length in Es.
    destruct word; [congruence|]. simpl in *. lia. }
  destruct (c =? "n")%char; [apply Hword in H; [exact H | discriminate]|].
  destruct (c =? "t")%char; [apply Hword in H; [exact H | discriminate]|].
  destruct (c =? "f")%char; [apply Hword in H; [exact H | discriminate]|].
  destruct (isNumberChar c) eqn:Hc; [|discriminate].
  destruct (spanNumber (String c t)) as [token after] eqn:Es.
  destruct (StringToNumber token); [|discriminate]. injection H as _ <-.
  pose proof (spanNumber_length _ Es) as Hl.
  simpl in Es. rewrite Hc in Es. destruct (spanNumber t).
  injection Es as <- <-. simpl in *. lia.
Qed.
End WithEngine.

(** *** More fuel changes nothing *)

Section Stable.
Variables pv pv' : string -> option (jsval * string).
Variable bound : nat.
Hypothesis agree : forall s, String.length s < bound -> pv' s = pv s.
Hypothesis pv_consumes : consumes pv.

Lemma parseElements_stable n : forall s,
  String.length s < bound -> String.length s <= n ->
  parseElements pv' (S n) s = parseElements pv n s.
Proof.
  induction n as [|n IH]; intros s Hb Hn.
  - simpl. rewrite (agree _ Hb).
    destruct (pv s) as [[v r]|] eqn:Ev; [|reflexivity].
    apply pv_consumes in Ev. lia.
  - cbn [parseElements]. rewrite (agree _ Hb).
    destruct (pv s) as [[v r]|] eqn:Ev; [|reflexivity].
    apply pv_consumes in Ev. pose proof (skipWs_length r) as Hr.
    destruct (skipWs r) as [|c r']; [reflexivity|]. simpl in Hr.
    destruct (c =? ",")%char; [|reflexivity].
    rewrite <- (IH r') by lia. reflexivity.
Qed.

Lemma parseMembers_stable n : forall s,
  String.length s < bound -> String.length s <= n ->
  parseMembers pv' (S n) s = parseMembers pv n s.
Proof.
  induction n as [|n IH]; intros s Hb Hn.
  - destruct s as [|c s]; [reflexivity | simpl in Hn; lia].
  - cbn [parseMembers]. pose proof (skipWs_length s) as H0.
    destruct (skipWs s) as [|q r0]; [reflexivity|]. simpl in H0.
    destruct (q =? DQUOTE)%char; [|reflexivity].
    destruct (parseChars r0) as [[k r1]|] eqn:Ek; [|reflexivity].
    apply parseChars_length in Ek. pose proof (skipWs_length r1) as H1.
    destruct (skipWs r1) as [|c r2]; [reflexivity|]. simpl in H1.
    destruct (c =? ":")%char; [|reflexivity].
    rewrite agree by lia.
    destruct (pv r2) as [[v r3]|] eqn:Ev; [|reflexivity].
    apply pv_consumes in Ev. pose proof (skipWs_length r3) as H3.
    destruct (skipWs r3) as [|d r4]; [reflexivity|]. simpl in H3.
    destruct (d =? ",")%char; [|reflexivity].
    rewrite <- (IH r4) by lia. reflexivity.
Qed.
End Stable.

Section Adequate.
Context {E : Engine}.

Lemma parseValue_stable fuel : forall s,
  String.length s < fuel -> parseValue (S fuel) s = parseValue fuel s.
Proof.
  induction fuel as [|fuel IH]; intros s Hs; [lia|].
  change (parseValueWith (parseValue (S fuel)) (S fuel) s
          = parseValueWith (parseValue fuel) fuel s).
  unfold parseValueWith. pose proof (skipWs_length s) as H0.
  destruct (skipWs s) as [|c t]; [reflexivity|]. simpl in H0.
  destruct (c =? "[")%char.
  { pose proof (skipWs_length t) as H1.
    destruct (skipWs t) as [|c' t'] eqn:Et; [reflexivity|].
    destruct (c' =? "]")%char; [reflexivity|].
    rewrite (@parseElements_stable (parseValue fuel) (parseValue (S fuel)) fuel);
      [reflexivity | exact IH | apply parseValue_consumes | lia | lia]. }
  destruct (c =? "{")%char.
  { pose proof (skipWs_length t) as H1.
    destruct (skipWs t) as [|c' t'] eqn:Et; [reflexivity|].
    destruct (c' =? "}")%char; [reflexivity|].
    rewrite (@parseMembers_stable (parseValue fuel) (parseValue (S fuel)) fuel);
      [reflexivity | exact IH | apply parseValue_consumes | lia | lia]. }
  reflexivity.
Qed.

(** The fuel of [parse] is enough: with any larger fuel the parser
    reads the text the same way, so a [SyntaxError] of the model is
    never a shortage of fuel. *)
Lemma parseValue_adequate (text : string) (fuel : nat) :
  String.length text < fuel ->
  parseValue fuel text = parseValue (S (String.length text)) text.
Proof.
  intros H. induction fuel as [|fuel IH]; [lia|].
  destruct (Nat.eq_dec fuel (String.length text)) as [->|Hne]; [reflexivity|].
  rewrite parseValue_stable by lia. apply IH. lia.
Qed.
End Adequate.
End JSONFuel.

(** ** The persisted ledger is read back *)

Section Persisted.
Context {E : Engine}.

Lemma Forall_flat_map_inv (A B : Type) (P : B -> Prop) (f : A -> list B) (l : list A) :
  Forall P (flat_map f l) -> Forall (fun a => Forall P (f a)) l.
Proof.
  induction l as [|a l IH]; simpl; intros H; [constructor|].
  apply Forall_app in H as [Ha Hl]. constructor; auto.
Qed.

Lemma leg_faithful leg :
  survives (FlightLeg.price leg) -> Faithful (legToJS leg).
Proof.
  intros [Hfin Hread]. constructor; [distinct_keys|].
  repeat (constructor; [simpl; try constructor; assumption|]). constructor.
Qed.

Lemma stay_faithful stay :
  survives (HotelStay.days stay) -> survives (HotelStay.pricePerNight stay) ->
  Faithful (stayToJS stay).
Proof.
  intros [Hfin Hread] [Hfin' Hread']. constructor; [distinct_keys|].
  repeat (constructor; [simpl; try constructor; assumption|]). constructor.
Qed.

Lemma search_faithful s :
  Forall survives (numbersOfSearch s) -> Faithful (searchToJS s).
Proof.
  unfold numbersOfSearch. intros H.
  apply Forall_cons_iff in H as [[Hfin Hread] H].
  apply Forall_app in H as [Hlegs Hstays].
  constructor; [distinct_keys|].
  constructor; [constructor|].
  constructor; [simpl; now constructor|].
  constructor; [|constructor]. simpl.
  constructor; [distinct_keys|].
  constructor; [|constructor; [|constructor]]; simpl; constructor.
  - rewrite Forall_map in Hlegs. apply Forall_map.
    eapply Forall_impl; [|exact Hlegs]. apply leg_faithful.
  - apply Forall_flat_map_inv in Hstays. apply Forall_map.
    eapply Forall_impl; [|exact Hstays]. simpl. intros stay Hs.
    apply Forall_cons_iff in Hs as [H1 Hs]. apply Forall_cons_iff in Hs as [H2 _].
    now apply stay_faithful.
Qed.

Lemma ledger_faithful ledger :
  Forall survives (numbersOf ledger) -> Faithful (ledgerToJS ledger).
Proof.
  intros H. apply Forall_flat_map_inv in H.
  constructor. apply Forall_map.
  eapply Forall_impl; [|exact H]. apply search_faithful.
Qed.
End Persisted.

(** ** Floating point *)

Lemma finite_cases x :
  is_finite x = true ->
  (exists s, Prim2SF x = S754_zero s) \/ (exists s m e, Prim2SF x = S754_finite s m e).
Proof.
  unfold is_finite. intros H.
  apply negb_true_iff, orb_false_iff in H. destruct H as [Hn Hi].
  unfold Prim2SF. rewrite Hn, Hi.
  destruct (is_zero x); [left; eauto|].
  destruct (Z.frexp x) as [r ex].
  destruct (shr_fexp _ _ _ _ _) as [shr e'].
  destruct (shr_m shr); [left | right | left]; eauto.
Qed.

(** A finite number minus itself is [0]. *)
Lemma sub_diag_finite x : is_finite x = true -> (x - x)%float = 0%float.
Proof.
  intros H. apply Prim2SF_inj. rewrite sub_spec.
  change (Prim2SF 0) with (S754_zero false).
  destruct (finite_cases x H) as [[s E]|(s & m & e & E)]; rewrite E.
  - destruct s; reflexivity.
  - unfold SF64sub, SFsub. rewrite Z.min_id, Z.sub_diag. reflexivity.
Qed.

(** ** Order of the timestamps *)

Section OrderFacts.
Variable A : Type.
Variable R : A -> A -> Prop.

Lemma Sorted_skipn k (l : list A) : Sorted R l -> Sorted R (skipn k l).
Proof.
  revert l. induction k as [|k IH]; intros l H; [exact H|].
  destruct l as [|a l]; [constructor|].
  simpl. apply IH. now inversion H.
Qed.

Lemma Sorted_snoc (l : list A) x :
  Sorted R l ->
  (forall t, nth_error l (length l - 1) = Some t -> R t x) ->
  Sorted R (l ++ [x]).
Proof.
  induction 1 as [|a l Hl IH Hd]; intros Hlast; simpl.
  - repeat constructor.
  - constructor.
    + apply IH. intros t Ht. apply Hlast.
      destruct l as [|b l]; [discriminate Ht|].
      simpl in *. now rewrite Nat.sub_0_r in *.
    + destruct Hd as [|b l Hab]; simpl; constructor; [|exact Hab].
      apply Hlast. reflexivity.
Qed.
End OrderFacts.

Section LedgerOrder.
Variable notBefore : string -> string -> Prop.

Lemma nonDecreasing_update ledger x :
  nonDecreasing notBefore ledger ->
  match JsArray.get ledger (length ledger - 1) with
  | Some tail => notBefore (timestamp tail) (timestamp x)
  | None => True
  end ->
  nonDecreasing notBefore (updatedHistory ledger x).
Proof.
  unfold nonDecreasing, updatedHistory, JsArray.get. intros Hs Hx.
  rewrite slice_last7, <- skipn_map. apply Sorted_skipn.
  rewrite map_app. apply Sorted_snoc; [exact Hs|].
  intros t. rewrite length_map, nth_error_map.
  destruct (nth_error ledger (length ledger - 1)); simpl; [|discriminate].
  now intros [= <-].
Qed.

Lemma nonDecreasing_appendAll entries : forall start,
  nonDecreasing notBefore start ->
  appendedInOrder notBefore start entries ->
  nonDecreasing notBefore (appendAll start entries).
Proof.
  induction entries as [|x entries IH]; intros start Hs Ho; [exact Hs|].
  destruct Ho as [Hx Ho]. apply IH; [|exact Ho].
  now apply nonDecreasing_update.
Qed.
End LedgerOrder.

(** ** What a search does to the history *)

Section Searches.
Context {E : Engine}.

Lemma handleSearch_history (w : App.World) (s : App.State) :
  App.searchHistory (App.handleSearch w s)
  = match App.tripReply w with
    | Returned data =>
        updatedHistory (App.searchHistory s)
                       (mkStoredSearch (App.now w) (totalFlightCost data) data)
    | Thrown _ => App.searchHistory s
    end.
Proof.
  unfold App.handleSearch, App.getTripData.
  destruct (App.tripReply w) as [data|message]; [|reflexivity].
  destruct (App.promiseAll _ _) as [[emailText whatsappText]|message]; reflexivity.
Qed.

Lemma handleSearch_stored (w : App.World) (s : App.State) :
  App.localStorage (App.handleSearch w s)
  = match App.tripReply w with
    | Returned _ =>
        Some (JSON.stringify (ledgerToJS (App.searchHistory (App.handleSearch w s))))
    | Thrown _ => App.localStorage s
    end.
Proof.
  unfold App.handleSearch, App.getTripData.
  destruct (App.tripReply w) as [data|message]; [|reflexivity].
  destruct (App.promiseAll _ _) as [[emailText whatsappText]|message]; reflexivity.
Qed.

(** A reply without flights is appended with the price [0], and the
    search then ends in the error of the WhatsApp prompt. *)
(** With the clock in order, the history of a session stays in order. *)
Lemma runSearches_order (notBefore : string -> string -> Prop)
      (worlds : list App.World) : forall s,
  nonDecreasing notBefore (App.searchHistory s) ->
  App.clockInOrder notBefore s worlds ->
  nonDecreasing notBefore (App.searchHistory (App.runSearches worlds s)).
Proof.
  induction worlds as [|w worlds IH]; intros s Hs Hc; [exact Hs|].
  destruct Hc as [Hw Hc]. apply IH; [|exact Hc].
  rewrite handleSearch_history.
  destruct (App.tripReply w) as [data|message]; [|exact Hs].
  apply nonDecreasing_update; [exact Hs|].
  destruct (JsArray.get _ _); [exact Hw | exact I].
Qed.

Lemma handleSearch_without_flights (w : App.World) (s : App.State)
      (data : TripResults) :
  App.tripReply w = Returned data ->
  flights data = [] ->
  App.searchHistory (App.handleSearch w s)
  = updatedHistory (App.searchHistory s) (mkStoredSearch (App.now w) 0 data) /\
  App.error (App.handleSearch w s) = Some App.undefinedTo.
Proof.
  intros Hr Hf. unfold App.handleSearch, App.getTripData. rewrite Hr.
  unfold App.getWhatsAppSummary, App.getEmailSummary, totalFlightCost.
  rewrite Hf. simpl.
  destruct (App.emailReply w _); split; reflexivity.
Qed.

(** Whatever the searches do, failing or not, the history of a session
    never holds more than seven searches. *)
Lemma runSearches_capacity (worlds : list App.World) : forall s,
  length (App.searchHistory s) <= 7 ->
  length (App.searchHistory (App.runSearches worlds s)) <= 7.
Proof.
  induction worlds as [|w worlds IH]; intros s Hs; [exact Hs|].
  apply IH. rewrite handleSearch_history.
  destruct (App.tripReply w); [rewrite updatedHistory_length; lia | exact Hs].
Qed.
End Searches.

(* ================================================================== *)
(** * The claims of the specification *)
(* ================================================================== *)

(** C1. Capacity invariant. Starting from the empty ledger, whatever
    the appends made so far ([entries]), the ledger after one more
    append of [x] has at most 7 entries and [x] is its newest (last)
    entry; the ledger was never longer than 7 before; below 7 nothing
    is removed, and once the ledger holds 7 entries the append removes
    exactly its head, keeping the other six in place.  The same bound
    holds for the history of a session, whatever its searches do. *)
Theorem capacity_invariant (entries : list StoredSearch) (x : StoredSearch) :
  let before := appendAll [] entries in
  let after := appendAll [] (entries ++ [x]) in
  length before <= 7 /\
  length after <= 7 /\
  JsArray.get after (length after - 1) = Some x /\
  (length before < 7 -> after = before ++ [x]) /\
  (length before = 7 -> after = tl before ++ [x] /\ length after = 7) /\
  (forall (E : Engine) (worlds : list App.World),
      length (App.searchHistory (App.runSearches worlds App.initialState)) <= 7).
Proof.
  cbv zeta. rewrite appendAll_snoc.
  assert (Hb : length (appendAll [] entries) <= 7)
    by (apply appendAll_length; simpl; lia).
  repeat split.
  - exact Hb.
  - rewrite updatedHistory_length. lia.
  - apply updatedHistory_newest.
  - apply updatedHistory_below.
  - now apply updatedHistory_full.
  - rewrite updatedHistory_length. lia.
  - intros E worlds. apply runSearches_capacity. simpl. lia.
Qed.

Lemma capacity_invariant_witness :
  length (appendAll [] Sample.firstSeven) = 7 /\
  appendAll [] (Sample.firstSeven ++ [Sample.eighth])
  = tl (appendAll [] Sample.firstSeven) ++ [Sample.eighth] /\
  length (appendAll [] (Sample.firstSeven ++ [Sample.eighth])) = 7.
Proof.
  split; [reflexivity|].
  exact (proj1 (proj2 (proj2 (proj2 (proj2
           (capacity_invariant Sample.firstSeven Sample.eighth))))) eq_refl).
Defined.

(** C2. Delta correctness. The derived series is always produced (the
    callback never reads past the array), has one point per stored
    search in stored order, copies the timestamp and the price, has no
    change at index 0 and, at every later index, the price of the entry
    minus the price of the entry just before it.  For prices
    100, 120, 120, 90 the changes are absent, 20, 0, -30. *)
Theorem delta_correctness :
  (forall searchHistory : list StoredSearch,
      exists series,
        priceHistoryForChart searchHistory = Some series /\
        length series = length searchHistory /\
        forall i item,
          nth_error searchHistory i = Some item ->
          exists point,
            nth_error series i = Some point /\
            date point = timestamp item /\
            price point = totalFlightPrice item /\
            match i with
            | 0 => change point = None
            | S j => exists prev,
                nth_error searchHistory j = Some prev /\
                change point
                = Some (totalFlightPrice item - totalFlightPrice prev)%float
            end) /\
  (forall t1 t2 t3 t4 r1 r2 r3 r4,
      option_map (List.map change)
        (priceHistoryForChart
           [searchOf t1 100 r1; searchOf t2 120 r2;
            searchOf t3 120 r3; searchOf t4 90 r4])
      = Some [None; Some 20; Some 0; Some (-30)]%float).
Proof.
  split.
  - intros searchHistory. exists (deltaSeries None searchHistory).
    split; [apply priceHistoryForChart_deltaSeries|].
    split; [apply deltaSeries_length|].
    intros i item Hi.
    destruct (deltaSeries_nth searchHistory None i Hi) as (pt & H1 & H2 & H3 & H4).
    exists pt. repeat split; try assumption.
  - intros. reflexivity.
Qed.

Lemma delta_correctness_witness :
  exists series,
    priceHistoryForChart Sample.ledger = Some series /\
    length series = 7 /\
    exists point,
      nth_error series 2 = Some point /\
      change point = Some (250 - 180)%float.
Proof.
  destruct (proj1 delta_correctness Sample.ledger) as (series & Hs & Hlen & Hpt).
  exists series. split; [exact Hs|]. split; [exact Hlen|].
  destruct (Hpt 2 (Sample.search "2025-01-04T09:00:00.000Z" 250) eq_refl)
    as (point & Hn & _ & _ & prev & Hprev & Hc).
  exists point. split; [exact Hn|].
  injection Hprev as <-. exact Hc.
Defined.

(** C3. End-to-end scenario. Eight appends of the prices 200, 180,
    180, 250, 260, 240, 230, 210 to the empty ledger leave exactly the
    last seven searches, the first one evicted, and the series derived
    from that ledger has the changes absent, 0, 70, 10, -20, -10, -20. *)
Theorem scenario_eight_appends :
  forall t1 t2 t3 t4 t5 t6 t7 t8 r1 r2 r3 r4 r5 r6 r7 r8,
    let final :=
      appendAll []
        [searchOf t1 200 r1; searchOf t2 180 r2; searchOf t3 180 r3;
         searchOf t4 250 r4; searchOf t5 260 r5; searchOf t6 240 r6;
         searchOf t7 230 r7; searchOf t8 210 r8] in
    final = [searchOf t2 180 r2; searchOf t3 180 r3; searchOf t4 250 r4;
             searchOf t5 260 r5; searchOf t6 240 r6; searchOf t7 230 r7;
             searchOf t8 210 r8] /\
    List.map totalFlightPrice final = [180; 180; 250; 260; 240; 230; 210]%float /\
    option_map (List.map change) (priceHistoryForChart final)
    = Some [None; Some 0; Some 70; Some 10; Some (-20); Some (-10); Some (-20)]%float.
Proof. intros. repeat split. Qed.

(** C4. Round trip of the persisted ledger. For every ledger all of
    whose numbers (the tracked prices and the numbers of the payloads)
    are finite and are read back by the engine from the text the engine
    writes for them, [JSON.parse(JSON.stringify(ledger))] returns a
    value equal to the ledger, field for field, payloads included, and
    the mount effect installs that value from the stored text; the
    empty ledger is such a ledger. *)
Theorem round_trip_of_finite_ledgers {E : Engine} (ledger : list StoredSearch) :
  Forall survives (numbersOf ledger) ->
  JSON.parse (JSON.stringify (ledgerToJS ledger)) = Returned (ledgerToJS ledger) /\
  App.loadHistory {| App.history := App.initialHistory;
                     App.storedHistory := Some (JSON.stringify (ledgerToJS ledger)) |}
  = Returned {| App.history := ledgerToJS ledger;
                App.storedHistory := Some (JSON.stringify (ledgerToJS ledger)) |}.
Proof.
  intros H.
  assert (Hp : JSON.parse (JSON.stringify (ledgerToJS ledger))
               = Returned (ledgerToJS ledger))
    by (apply JSONFacts.parse_stringify; now apply ledger_faithful).
  split; [exact Hp|].
  unfold App.loadHistory. cbn [App.storedHistory App.history].
  rewrite Hp. reflexivity.
Qed.

Lemma sample_numbers_survive :
  Forall (@survives WholeNumbers.engine) (numbersOf Sample.ledger).
Proof. repeat constructor. Defined.

Lemma round_trip_witness :
  length Sample.ledger = 7 /\
  Forall (@survives WholeNumbers.engine) (numbersOf Sample.ledger) /\
  @JSON.parse WholeNumbers.engine
    (@JSON.stringify WholeNumbers.engine (ledgerToJS Sample.ledger))
  = Returned (ledgerToJS Sample.ledger).
Proof.
  split; [reflexivity|]. split; [exact sample_numbers_survive|].
  exact (proj1 (@round_trip_of_finite_ledgers WholeNumbers.engine Sample.ledger
                  sample_numbers_survive)).
Defined.

(** A number that is not finite is written as [null] and read back as
    [null]: the ledger read back differs from the one written. *)
Lemma round_trip_loses_infinity :
  @JSON.parse WholeNumbers.engine
    (@JSON.stringify WholeNumbers.engine (ledgerToJS [Sample.unboundedStay]))
  = Returned Sample.unboundedStayReadBack /\
  @JSON.parse WholeNumbers.engine
    (@JSON.stringify WholeNumbers.engine (ledgerToJS [Sample.unboundedStay]))
  <> Returned (ledgerToJS [Sample.unboundedStay]).
Proof.
  split; [vm_compute; reflexivity|].
  intros H. vm_compute in H. discriminate H.
Qed.

(** C5. Latest reference price. On the empty ledger the query is
    [null] and the derived series is the empty array; on every
    non-empty ledger (every ledger is empty or ends in some entry [x])
    the query returns the price of its last entry, which after an
    append is the entry just appended. *)
Theorem latest_reference_price :
  previousPrice [] = None /\
  priceHistoryForChart [] = Some [] /\
  (forall searchHistory : list StoredSearch,
      searchHistory = [] \/
      exists pre x, searchHistory = pre ++ [x] /\
                    previousPrice searchHistory = Some (totalFlightPrice x)) /\
  (forall prev x, previousPrice (updatedHistory prev x) = Some (totalFlightPrice x)).
Proof.
  repeat split.
  - intros l. destruct l as [|a l]; [now left|right].
    destruct (exists_last (l := a :: l)) as (pre & x & E); [discriminate|].
    exists pre, x. split; [exact E|]. rewrite E. apply previousPrice_snoc.
  - intros prev x. rewrite updatedHistory_suffix. apply previousPrice_snoc.
Qed.

(** C6. Absent versus zero. In the derived series the change of the
    first point is [null]; a later point whose price is the price of
    the entry before it, that price being finite, has the change [0];
    the two are
    different values of the field, the table cell shows a dash for the
    first and the formatted amount zero for the second, and the bar
    tooltip shows no change for the first and a bracketed formatted
    zero for the second. *)
Theorem absent_versus_zero (pre rest : list StoredSearch) (y item : StoredSearch) :
  totalFlightPrice item = totalFlightPrice y ->
  is_finite (totalFlightPrice y) = true ->
  exists series first later,
    priceHistoryForChart (pre ++ y :: item :: rest) = Some series /\
    nth_error series 0 = Some first /\
    nth_error series (S (length pre)) = Some later /\
    change first = None /\
    change later = Some 0%float /\
    change first <> change later /\
    renderChange (change first) = {| className := None; children := [Text "-"] |} /\
    renderChange (change later) = {| className := None; children := [Currency 0] |} /\
    renderChange (change first) <> renderChange (change later) /\
    changeText (change first) = [] /\
    changeText (change later) = [Text " ("; Text ""; Currency 0; Text ")"].
Proof.
  intros Heq Hfin.
  set (searchHistory := pre ++ y :: item :: rest).
  assert (H0 : exists e, nth_error searchHistory 0 = Some e).
  { unfold searchHistory. destruct pre; simpl; eauto. }
  destruct H0 as [e He].
  assert (Hi : nth_error searchHistory (S (length pre)) = Some item).
  { unfold searchHistory. rewrite nth_error_app2 by lia.
    replace (S (length pre) - length pre) with 1 by lia. reflexivity. }
  assert (Hy : nth_error searchHistory (length pre) = Some y).
  { unfold searchHistory. rewrite nth_error_app2 by lia.
    rewrite Nat.sub_diag. reflexivity. }
  destruct (deltaSeries_nth searchHistory None 0 He) as (first & Hf & _ & _ & Hfc).
  destruct (deltaSeries_nth searchHistory None (S (length pre)) Hi)
    as (later & Hl & _ & _ & prev & Hprev & Hlc).
  rewrite Hy in Hprev. injection Hprev as <-.
  rewrite Heq, sub_diag_finite in Hlc by exact Hfin. simpl in Hfc.
  exists (deltaSeries None searchHistory), first, later.
  rewrite Hfc, Hlc.
  repeat split; try assumption; try discriminate.
  apply priceHistoryForChart_deltaSeries.
Qed.

Lemma absent_versus_zero_witness :
  exists series first later,
    priceHistoryForChart
      ([] ++ Sample.search "2025-01-02T09:00:00.000Z" 180
          :: Sample.search "2025-01-03T09:00:00.000Z" 180 :: [])
    = Some series /\
    nth_error series 0 = Some first /\
    nth_error series 1 = Some later /\
    change first = None /\
    change later = Some 0%float /\
    change first <> change later /\
    renderChange (change first) = {| className := None; children := [Text "-"] |} /\
    renderChange (change later) = {| className := None; children := [Currency 0] |} /\
    renderChange (change first) <> renderChange (change later) /\
    changeText (change first) = [] /\
    changeText (change later) = [Text " ("; Text ""; Currency 0; Text ")"].
Proof.
  exact (absent_versus_zero [] []
           (Sample.search "2025-01-02T09:00:00.000Z" 180)
           (Sample.search "2025-01-03T09:00:00.000Z" 180)
           eq_refl eq_refl).
Defined.

(** Two searches whose replies hold a flight price beyond the range of
    the doubles, read as [Infinity]: the two totals are equal, and the
    change of the second point is [NaN], not [0]; the table shows it as
    a fall of [NaN], not as the amount zero. *)
Lemma equal_infinite_prices_change_is_nan :
  let s := @App.runSearches WholeNumbers.engine
             [SampleSession.online "2025-01-09T09:00:00.000Z" infinity;
              SampleSession.online "2025-01-10T09:00:00.000Z" infinity]
             App.initialState in
  List.map totalFlightPrice (App.searchHistory s) = [infinity; infinity] /\
  option_map (List.map change) (priceHistoryForChart (App.searchHistory s))
  = Some [None; Some nan] /\
  Some nan <> Some 0%float /\
  renderChange (Some nan)
  = {| className := Some "price-decrease"%string;
       children := [Text "↓"; Text " "; Currency nan] |} /\
  renderChange (Some nan) <> {| className := None; children := [Currency 0] |}.
Proof.
  cbv zeta. split; [reflexivity|]. split; [reflexivity|].
  split; [|split; [reflexivity|]].
  - intros H. apply (f_equal (option_map is_nan)) in H. discriminate H.
  - intros H. apply (f_equal className) in H. discriminate H.
Qed.

(** Loading the stored history. The mount effect never throws,
    whatever is stored.  A stored text that [JSON.parse] rejects leaves
    the history as it was at mount, the empty array, and the stored
    item is removed (the empty text, which is not even parsed, stays).
    A stored text that [JSON.parse] accepts is installed as the history
    as it is, whatever its shape, and stays stored. *)
Theorem load_recovers_from_unparsable_text {E : Engine} :
  (forall m, exists after, App.loadHistory m = Returned after) /\
  (forall text message,
      JSON.parse text = Thrown message ->
      App.loadHistory {| App.history := App.initialHistory;
                         App.storedHistory := Some text |}
      = Returned {| App.history := App.initialHistory;
                    App.storedHistory := match text with
                                         | EmptyString => Some text
                                         | String _ _ => None
                                         end |}) /\
  (forall text parsed,
      JSON.parse text = Returned parsed ->
      App.loadHistory {| App.history := App.initialHistory;
                         App.storedHistory := Some text |}
      = Returned {| App.history := match text with
                                   | EmptyString => App.initialHistory
                                   | String _ _ => parsed
                                   end;
                    App.storedHistory := Some text |}).
Proof.
  unfold App.loadHistory, App.tryCatch. repeat split.
  - intros [current [[|c text]|]]; cbn [App.storedHistory App.history]; eauto.
    destruct (JSON.parse (String c text)); eauto.
  - intros [|c text] message H; cbn [App.storedHistory App.history];
      [reflexivity | now rewrite H].
  - intros [|c text] parsed H; cbn [App.storedHistory App.history];
      [reflexivity | now rewrite H].
Qed.

Lemma load_recovers_witness :
  @JSON.parse WholeNumbers.engine "[{" = Thrown JSON.syntaxError /\
  @App.loadHistory WholeNumbers.engine
    {| App.history := App.initialHistory; App.storedHistory := Some "[{"%string |}
  = Returned {| App.history := App.initialHistory; App.storedHistory := None |}.
Proof.
  split; [reflexivity|].
  exact (proj1 (proj2 (@load_recovers_from_unparsable_text WholeNumbers.engine))
           "[{"%string JSON.syntaxError eq_refl).
Defined.

(** A stored text that parses but is no ledger is installed, not
    replaced by the empty ledger, and is not removed. *)
Lemma load_installs_mismatched_blob :
  @App.loadHistory WholeNumbers.engine
    {| App.history := App.initialHistory; App.storedHistory := Some "{}"%string |}
  = Returned {| App.history := JObj []; App.storedHistory := Some "{}"%string |} /\
  @App.loadHistory WholeNumbers.engine
    {| App.history := App.initialHistory; App.storedHistory := Some "{}"%string |}
  <> Returned {| App.history := App.initialHistory; App.storedHistory := None |} /\
  (forall ledger, ledgerToJS ledger <> JObj []).
Proof.
  split; [reflexivity|]. split; [discriminate|].
  intros ledger. discriminate.
Qed.

(** C7. Recovery from a stored blob. The recovery of the mount effect
    stops at the syntax.  The stored text [{}] is read without an
    error, so it is handed to [setSearchHistory] and stays stored; the
    history is then an object, not the empty ledger, and the render
    that follows throws the [TypeError] of calling its [map].  So it
    goes for every stored text whose value is no array. *)
Theorem mismatched_blob_breaks_the_render {E : Engine} :
  let stored := Some "{}"%string in
  App.loadHistory {| App.history := App.initialHistory;
                     App.storedHistory := stored |}
  = Returned {| App.history := JObj []; App.storedHistory := stored |} /\
  JObj [] <> App.initialHistory /\
  App.mapReceiver (JObj []) = Thrown App.mapNotAFunction /\
  (forall text parsed,
      text <> EmptyString ->
      JSON.parse text = Returned parsed ->
      (forall items, parsed <> JArr items) ->
      App.loadHistory {| App.history := App.initialHistory;
                         App.storedHistory := Some text |}
      = Returned {| App.history := parsed; App.storedHistory := Some text |} /\
      exists message, App.mapReceiver parsed = Thrown message).
Proof.
  cbv zeta. split; [reflexivity|]. split; [discriminate|].
  split; [reflexivity|].
  intros text parsed Hne Hp Harr. split.
  - unfold App.loadHistory, App.tryCatch. cbn [App.storedHistory App.history].
    destruct text as [|c text]; [congruence|]. now rewrite Hp.
  - destruct parsed as [| b | x | str | items | props]; cbn [App.mapReceiver]; eauto.
    now contradiction (Harr items).
Qed.

(** C8. Atomicity on upstream failure. When the trip search throws,
    [handleSearch] leaves the history and the stored item as they were,
    shows the default error, clears the loading flag and sets no result
    and no summary. *)
Theorem failed_search_leaves_ledger {E : Engine} (w : App.World) (s : App.State)
        (message : string) :
  App.tripReply w = Thrown message ->
  let s' := App.handleSearch w s in
  App.searchHistory s' = App.searchHistory s /\
  App.localStorage s' = App.localStorage s /\
  App.error s' = Some App.errorDefault /\
  App.isLoading s' = false /\
  App.results s' = None /\
  App.emailSummary s' = None /\ App.whatsappSummary s' = None.
Proof.
  intros H. unfold App.handleSearch, App.getTripData. rewrite H.
  simpl. repeat split.
Qed.

Lemma failed_search_witness :
  App.searchHistory (@App.handleSearch WholeNumbers.engine Sample.offline Sample.beforeSearch)
  = Sample.ledger /\
  App.error (@App.handleSearch WholeNumbers.engine Sample.offline Sample.beforeSearch)
  = Some App.errorDefault.
Proof.
  pose proof (@failed_search_leaves_ledger WholeNumbers.engine Sample.offline
                Sample.beforeSearch "Failed to fetch" eq_refl) as H.
  cbv zeta in H. split; [exact (proj1 H) | exact (proj1 (proj2 (proj2 H)))].
Defined.

(** C9. Order invariant. Whatever relation orders the timestamps: when
    every appended search carries a timestamp no earlier than the one
    of the tail it is appended to, the ledger reached from the empty
    ledger is non-decreasing in its timestamps; an append keeps a
    suffix of the old entries, unchanged and in their order, before the
    new entry; and the history of a session whose clock never reads
    earlier than the newest stored timestamp is non-decreasing. *)
Theorem order_invariant (notBefore : string -> string -> Prop)
        (entries : list StoredSearch) :
  appendedInOrder notBefore [] entries ->
  nonDecreasing notBefore (appendAll [] entries) /\
  (forall ledger x, exists k, updatedHistory ledger x = skipn k ledger ++ [x]) /\
  (forall (E : Engine) (worlds : list App.World),
      App.clockInOrder notBefore App.initialState worlds ->
      nonDecreasing notBefore
        (App.searchHistory (App.runSearches worlds App.initialState))).
Proof.
  intros H. repeat split.
  - apply nonDecreasing_appendAll; [constructor | exact H].
  - intros ledger x. exists (length ledger - 6). apply updatedHistory_suffix.
  - intros E worlds Hc. apply runSearches_order; [constructor | exact Hc].
Qed.

Lemma order_invariant_witness :
  appendedInOrder Sample.notBefore [] Sample.eightSearches /\
  nonDecreasing Sample.notBefore Sample.ledger.
Proof.
  assert (H : appendedInOrder Sample.notBefore [] Sample.eightSearches)
    by (simpl; repeat split).
  split; [exact H | exact (proj1 (order_invariant Sample.notBefore Sample.eightSearches H))].
Defined.

(** C10. A previous price of zero reads as no previous price. When the
    newest stored search has a price equal to 0, the baseline query
    returns that price, not [null]; yet both summary generators choose
    the first-search sentence, exactly as they do for the empty
    history, and so return the same summaries as for it. *)
Theorem zero_baseline_reads_as_first_search
        (pre : list StoredSearch) (x : StoredSearch) (data : TripResults) :
  (totalFlightPrice x =? 0)%float = true ->
  previousPrice (pre ++ [x]) = Some (totalFlightPrice x) /\
  previousPrice (pre ++ [x]) <> previousPrice [] /\
  emailPriceAnalysis data (previousPrice (pre ++ [x])) = FirstSearch /\
  whatsAppPriceAnalysis data (previousPrice (pre ++ [x])) = FirstSearch /\
  emailPriceAnalysis data (previousPrice (pre ++ [x]))
  = emailPriceAnalysis data (previousPrice []) /\
  whatsAppPriceAnalysis data (previousPrice (pre ++ [x]))
  = whatsAppPriceAnalysis data (previousPrice []) /\
  (forall w : App.World,
      App.getEmailSummary w data (previousPrice (pre ++ [x]))
      = App.getEmailSummary w data (previousPrice []) /\
      App.getWhatsAppSummary w data (previousPrice (pre ++ [x]))
      = App.getWhatsAppSummary w data (previousPrice [])).
Proof.
  intros Hz. rewrite previousPrice_snoc.
  unfold App.getEmailSummary, App.getWhatsAppSummary.
  unfold emailPriceAnalysis, whatsAppPriceAnalysis, truthy, is_zero.
  change zero with 0%float. rewrite Hz. simpl.
  repeat split; discriminate.
Qed.

Lemma zero_baseline_witness :
  emailPriceAnalysis (Sample.trip 200)
    (previousPrice (Sample.firstSeven ++ [Sample.search "2025-01-08T09:00:00.000Z" 0]))
  = FirstSearch.
Proof.
  exact (proj1 (proj2 (proj2
          (zero_baseline_reads_as_first_search Sample.firstSeven
             (Sample.search "2025-01-08T09:00:00.000Z" 0) (Sample.trip 200) eq_refl)))).
Defined.

(* ================================================================== *)
(** * Further properties of the component *)
(* ================================================================== *)

(** ** Order of the doubles *)

Lemma SFcompare_Lt_Gt x y : SFcompare x y = Some Lt -> SFcompare y x = Some Gt.
Proof.
  destruct x as [sx|sx| |sx mx ex], y as [sy|sy| |sy my ey]; simpl;
    try discriminate; try (destruct sx; discriminate || reflexivity);
    try (destruct sy; discriminate || reflexivity);
    try (destruct sx, sy; discriminate || reflexivity).
  change (PosDef.Pos.compare_cont Eq mx my) with (Pos.compare mx my).
  change (PosDef.Pos.compare_cont Eq my mx) with (Pos.compare my mx).
  rewrite (Z.compare_antisym ex ey), (Pos.compare_antisym mx my).
  destruct sx, sy; try discriminate; try reflexivity;
    destruct (ex ?= ey)%Z; simpl; try discriminate; try reflexivity;
    destruct (mx ?= my)%positive; simpl; try discriminate; reflexivity.
Qed.

(** [a < b] excludes [b < a] and [b == a]. *)
Lemma ltb_asym (a b : float) : (a <? b)%float = true -> (b <? a)%float = false.
Proof.
  rewrite !ltb_spec. unfold SFltb. intros H.
  destruct (SFcompare (Prim2SF a) (Prim2SF b)) as [[| |]|] eqn:E; try discriminate.
  now rewrite (SFcompare_Lt_Gt _ _ E).
Qed.

Lemma ltb_not_eqb (a b : float) :
  (a <? b)%float = true -> (a =? b)%float = false /\ (b =? a)%float = false.
Proof.
  rewrite ltb_spec, !eqb_spec. unfold SFltb, SFeqb. intros H.
  destruct (SFcompare (Prim2SF a) (Prim2SF b)) as [[| |]|] eqn:E; try discriminate.
  now rewrite (SFcompare_Lt_Gt _ _ E).
Qed.

Lemma Prim2SF_nan (x : float) : is_nan x = true -> Prim2SF x = S754_nan.
Proof. intros H. unfold Prim2SF. now rewrite H. Qed.

Lemma Prim2SF_not_nan (x : float) : is_nan x = false -> Prim2SF x <> S754_nan.
Proof.
  intros H. unfold Prim2SF. rewrite H.
  destruct (is_zero x); [discriminate|].
  destruct (is_infinity x); [discriminate|].
  destruct (Z.frexp x) as [r ex].
  destruct (shr_fexp _ _ _ _ _) as [shr e'].
  destruct (shr_m shr); discriminate.
Qed.

(** [NaN] is neither below nor above anything. *)
Lemma ltb_nan (x a : float) :
  is_nan x = true -> (a <? x)%float = false /\ (x <? a)%float = false.
Proof.
  intros H. rewrite !ltb_spec, (Prim2SF_nan x H). unfold SFltb. simpl.
  split; [destruct (Prim2SF a)|]; reflexivity.
Qed.

(** [Math.abs] never returns a number below zero. *)
Lemma abs_not_below_zero (x : float) : (abs x <? 0)%float = false.
Proof.
  rewrite ltb_spec, abs_spec. change (Prim2SF 0) with (S754_zero false).
  destruct (Prim2SF x); reflexivity.
Qed.

(** [Math.abs] leaves a number above zero as it is. *)
Lemma abs_above_zero (x : float) : (0 <? x)%float = true -> abs x = x.
Proof.
  rewrite ltb_spec. change (Prim2SF 0) with (S754_zero false). intros H.
  apply Prim2SF_inj. rewrite abs_spec.
  destruct (Prim2SF x) as [s|s| |s m e]; try reflexivity;
    destruct s; try reflexivity; discriminate.
Qed.

(** A number that is neither above nor below zero, and is a number,
    equals zero. *)
Lemma eqb_zero_between (x : float) :
  is_nan x = false -> (0 <? x)%float = false -> (x <? 0)%float = false ->
  (x =? 0)%float = true.
Proof.
  intros Hn. rewrite !ltb_spec, eqb_spec. change (Prim2SF 0) with (S754_zero false).
  pose proof (Prim2SF_not_nan x Hn) as Hx.
  destruct (Prim2SF x) as [s|s| |s m e]; try reflexivity; try congruence;
    destruct s; discriminate.
Qed.

(** ** Sessions *)

Section SessionFacts.
Context {E : Engine}.

Lemma appendAll_window (entries : list StoredSearch) : forall start,
  length start <= 7 ->
  appendAll start entries = JsArray.slice (-7) (start ++ entries).
Proof.
  induction entries as [|x entries IH] using rev_ind; intros start Hs.
  - rewrite app_nil_r, slice_last7.
    replace (length start - 7) with 0 by lia. reflexivity.
  - rewrite appendAll_snoc, (IH start Hs), updatedHistory_suffix, !slice_last7.
    rewrite app_assoc, length_skipn, skipn_skipn.
    set (whole := start ++ entries).
    rewrite length_app, skipn_app. cbn [length].
    replace (length whole + 1 - 7 - length whole) with 0 by lia.
    cbn [skipn]. f_equal. f_equal. lia.
Qed.

Lemma runSearches_entries (worlds : list App.World) : forall s,
  App.searchHistory (App.runSearches worlds s)
  = appendAll (App.searchHistory s) (entriesOf worlds).
Proof.
  induction worlds as [|w worlds IH]; intros s; [reflexivity|].
  change (App.runSearches (w :: worlds) s)
    with (App.runSearches worlds (App.handleSearch w s)).
  rewrite IH, handleSearch_history. unfold entriesOf, entryOf. cbn [flat_map].
  destruct (App.tripReply w) as [data|message]; reflexivity.
Qed.

Lemma handleSearch_inSync (w : App.World) (s : App.State) :
  inSync s -> inSync (App.handleSearch w s).
Proof.
  unfold inSync. intros H. rewrite handleSearch_stored.
  destruct (App.tripReply w) as [data|message] eqn:Hr.
  - split; [reflexivity|].
    rewrite handleSearch_history, Hr, updatedHistory_suffix.
    now destruct (skipn _ _).
  - rewrite handleSearch_history, Hr. exact H.
Qed.

Lemma runSearches_inSync (worlds : list App.World) : forall s,
  inSync s -> inSync (App.runSearches worlds s).
Proof.
  induction worlds as [|w worlds IH]; intros s H; [exact H|].
  apply IH, handleSearch_inSync, H.
Qed.

Lemma handleSearch_error (w : App.World) (s : App.State) :
  App.error (App.handleSearch w s)
  = match App.tripReply w with
    | Thrown _ => Some App.errorDefault
    | Returned data =>
        match flights data with
        | [] => Some App.undefinedTo
        | _ :: _ => None
        end
    end.
Proof.
  unfold App.handleSearch, App.getTripData.
  destruct (App.tripReply w) as [data|message]; [|reflexivity].
  unfold App.getWhatsAppSummary, App.getEmailSummary.
  destruct (flights data) as [|leg legs] eqn:Hf.
  - cbn [length Nat.sub JsArray.get nth_error].
    destruct (App.emailReply w _); reflexivity.
  - destruct (JsArray.get (leg :: legs) (length (leg :: legs) - 1)) eqn:Hg.
    + destruct (App.emailReply w _), (App.whatsAppReply w _); reflexivity.
    + apply nth_error_None in Hg. cbn [length] in Hg. lia.
Qed.
End SessionFacts.

(** ** The newest point of the chart *)

Lemma deltaSeries_snoc (entries : list StoredSearch) (x : StoredSearch) :
  forall previous,
  deltaSeries previous (entries ++ [x])
  = deltaSeries previous entries
      ++ [{| date := timestamp x; price := totalFlightPrice x;
             change := option_map (fun p => (totalFlightPrice x - p)%float)
                                  (match previousPrice entries with
                                   | Some p => Some p
                                   | None => previous
                                   end) |}].
Proof.
  induction entries as [|e entries IH]; intros previous; [reflexivity|].
  cbn [app deltaSeries]. rewrite IH. f_equal. f_equal. f_equal. f_equal.
  destruct entries as [|e' entries]; [reflexivity|].
  change (e :: e' :: entries) with ([e] ++ (e' :: entries)).
  destruct (exists_last (l := e' :: entries)) as (pre & y & Hy); [discriminate|].
  rewrite Hy, app_assoc, !previousPrice_snoc. reflexivity.
Qed.

Lemma previousPrice_skipn (k : nat) (prev : list StoredSearch) :
  k < length prev -> previousPrice (skipn k prev) = previousPrice prev.
Proof.
  intros Hk.
  destruct (exists_last (l := prev)) as (pre & y & Hy);
    [intros ->; simpl in Hk; lia|].
  subst prev. rewrite length_app in Hk. cbn [length] in Hk.
  rewrite skipn_app. replace (k - length pre) with 0 by lia.
  cbn [skipn]. now rewrite !previousPrice_snoc.
Qed.

Lemma updatedHistory_chart (prev : list StoredSearch) (x : StoredSearch) :
  exists older,
    priceHistoryForChart (updatedHistory prev x)
    = Some (older
              ++ [{| date := timestamp x; price := totalFlightPrice x;
                     change := option_map (fun p => (totalFlightPrice x - p)%float)
                                          (previousPrice prev) |}]) /\
    length older = Nat.min (length prev) 6.
Proof.
  exists (deltaSeries None (skipn (length prev - 6) prev)).
  rewrite priceHistoryForChart_deltaSeries, updatedHistory_suffix, deltaSeries_snoc.
  rewrite deltaSeries_length, length_skipn. split; [|lia].
  f_equal. f_equal. f_equal. f_equal. f_equal.
  destruct prev as [|e prev]; [reflexivity|].
  rewrite previousPrice_skipn by (cbn [length]; lia).
  now destruct (previousPrice (e :: prev)).
Qed.

(** ** Bars *)

Lemma higher_cases (a b : float) :
  JsMath.higher a b = nan \/ JsMath.higher a b = a
  \/ (JsMath.higher a b = b /\ (b <? a)%float = false).
Proof.
  unfold JsMath.higher.
  destruct (is_nan a || is_nan b); [now left|].
  destruct (a <? b)%float eqn:Hlt.
  - right. right. split; [reflexivity | now apply ltb_asym].
  - cbn [orb].
    destruct (is_zero b && negb (get_sign b) && is_zero a && get_sign a) eqn:Hz;
      [|right; now left].
    right. right. split; [reflexivity|].
    apply andb_true_iff in Hz. destruct Hz as [Hz _].
    apply andb_true_iff in Hz. destruct Hz as [Hz Hza].
    apply andb_true_iff in Hz. destruct Hz as [Hzb _].
    unfold is_zero in Hzb, Hza.
    rewrite eqb_spec in Hzb, Hza. rewrite ltb_spec.
    change (Prim2SF 0) with (S754_zero false) in Hzb, Hza.
    unfold SFeqb, SFltb in *.
    destruct (Prim2SF a) as [sa|sa| |sa ma ea]; try discriminate;
      destruct (Prim2SF b) as [sb|sb| |sb mb eb]; try discriminate;
      try reflexivity;
      try (destruct sa; discriminate); try (destruct sb; discriminate).
Qed.

Lemma max_not_above (bound : float) (values : list float) : forall highest,
  (bound <? highest)%float = false ->
  (forall v, In v values -> (bound <? v)%float = false) ->
  (bound <? fold_left JsMath.higher values highest)%float = false.
Proof.
  induction values as [|v values IH]; intros highest Hh Hv; [exact Hh|].
  cbn [fold_left]. apply IH; [|intros u Hu; apply Hv; now right].
  destruct (higher_cases highest v) as [-> | [-> | [-> _]]].
  - now apply (ltb_nan nan bound).
  - exact Hh.
  - apply Hv. now left.
Qed.

Lemma max_nan (values : list float) :
  fold_left JsMath.higher values nan = nan.
Proof. induction values as [|v values IH]; [reflexivity | exact IH]. Qed.

Lemma max_absorbs_nan (values : list float) : forall highest v,
  In v values -> is_nan v = true ->
  fold_left JsMath.higher values highest = nan.
Proof.
  induction values as [|u values IH]; intros highest v Hin Hv; [contradiction|].
  cbn [fold_left]. destruct Hin as [-> | Hin]; [|now apply (IH _ v)].
  unfold JsMath.higher at 2. rewrite Hv, orb_true_r. apply max_nan.
Qed.

(** ** Text *)

Module JsStringFacts.
Import JsString.

Lemma lacks_app (c : ascii) (a b : string) :
  lacks c (a ++ b) = lacks c a && lacks c b.
Proof.
  unfold lacks. induction a as [|x a IH]; [reflexivity|].
  cbn [append allChars]. rewrite IH. now rewrite andb_assoc.
Qed.

Lemma lacks_cons (c x : ascii) (s : string) :
  lacks c (String x s) = negb (x =? c)%char && lacks c s.
Proof. reflexivity. Qed.

Lemma firstWord_lacks_space (s : string) : lacks " " (firstWord s) = true.
Proof.
  induction s as [|c s IH]; [reflexivity|].
  cbn [firstWord]. destruct (c =? " ")%char eqn:Hc; [reflexivity|].
  rewrite lacks_cons, Hc. exact IH.
Qed.

Lemma firstWord_split (s : string) : firstWord s = fst (splitAt " " s).
Proof.
  induction s as [|c s IH]; [reflexivity|].
  cbn [firstWord splitAt]. destruct (splitAt " " s) as [first others].
  destruct (c =? " ")%char; [reflexivity|]. cbn [fst] in *. now rewrite IH.
Qed.

Lemma replaceNewlines_lacks (replacement s : string) :
  lacks "010" replacement = true ->
  lacks "010" (replaceNewlines replacement s) = true.
Proof.
  intros Hr. induction s as [|c s IH]; [reflexivity|].
  cbn [replaceNewlines]. destruct (c =? "010")%char eqn:Hc.
  - now rewrite lacks_app, Hr, IH.
  - now rewrite lacks_cons, Hc, IH.
Qed.

Lemma replaceNewlines_without (replacement s : string) :
  lacks "010" s = true -> replaceNewlines replacement s = s.
Proof.
  induction s as [|c s IH]; [reflexivity|].
  rewrite lacks_cons. intros H. apply andb_true_iff in H. destruct H as [Hc Hs].
  cbn [replaceNewlines]. apply negb_true_iff in Hc. rewrite Hc. now rewrite IH.
Qed.

Section Delimited.
Variable d : ascii.
Variables opening closing : string.

Lemma replaceDelimited_without (s : string) :
  lacks d s = true -> replaceDelimited d opening closing None s = s.
Proof.
  induction s as [|c s IH]; [reflexivity|].
  rewrite lacks_cons. intros H. apply andb_true_iff in H. destruct H as [Hc Hs].
  cbn [replaceDelimited]. apply negb_true_iff in Hc. rewrite Hc. now rewrite IH.
Qed.

Lemma replaceDelimited_opens (rest : string) :
  replaceDelimited d opening closing None (String d rest)
  = replaceDelimited d opening closing (Some EmptyString) rest.
Proof. cbn [replaceDelimited]. now rewrite Ascii.eqb_refl. Qed.

Lemma replaceDelimited_again (rest : string) :
  replaceDelimited d opening closing (Some EmptyString) (String d rest)
  = String d (replaceDelimited d opening closing (Some EmptyString) rest).
Proof. cbn [replaceDelimited]. now rewrite Ascii.eqb_refl. Qed.

Lemma replaceDelimited_before (pre rest : string) :
  lacks d pre = true ->
  replaceDelimited d opening closing None (pre ++ rest)
  = (pre ++ replaceDelimited d opening closing None rest)%string.
Proof.
  induction pre as [|c pre IH]; [reflexivity|].
  rewrite lacks_cons. intros H. apply andb_true_iff in H. destruct H as [Hc Hs].
  cbn [append replaceDelimited]. apply negb_true_iff in Hc. rewrite Hc.
  now rewrite IH.
Qed.

Lemma append_snoc (a : string) (c : ascii) (b : string) :
  ((a ++ String c "") ++ b)%string = (a ++ String c b)%string.
Proof. exact (append_assoc a (String c "") b). Qed.

(** A run closed by the delimiter is a match. *)
Lemma replaceDelimited_run (x : string) : forall run rest,
  lacks d x = true ->
  (run ++ x)%string <> EmptyString ->
  replaceDelimited d opening closing (Some run) (x ++ String d rest)
  = (opening ++ (run ++ x) ++ closing
       ++ replaceDelimited d opening closing None rest)%string.
Proof.
  induction x as [|c x IH]; intros run rest Hx Hne.
  - rewrite append_nil_r in *. cbn [append replaceDelimited].
    rewrite Ascii.eqb_refl. destruct run; [congruence | reflexivity].
  - rewrite lacks_cons in Hx. apply andb_true_iff in Hx. destruct Hx as [Hc Hx].
    apply negb_true_iff in Hc.
    cbn [append replaceDelimited]. rewrite Hc.
    rewrite IH; [|exact Hx|].
    + now rewrite append_snoc.
    + rewrite append_snoc. now destruct run.
Qed.

(** A run that reaches the end is no match. *)
Lemma replaceDelimited_open (x : string) : forall run,
  lacks d x = true ->
  replaceDelimited d opening closing (Some run) x = String d (run ++ x).
Proof.
  induction x as [|c x IH]; intros run Hx.
  - now rewrite append_nil_r.
  - rewrite lacks_cons in Hx. apply andb_true_iff in Hx. destruct Hx as [Hc Hx].
    apply negb_true_iff in Hc.
    cbn [replaceDelimited]. rewrite Hc, IH by exact Hx. now rewrite append_snoc.
Qed.
End Delimited.

End JsStringFacts.

(** ** Lines *)

Lemma split_join (sep : ascii) (s : string) :
  JsString.join (String sep "") (JsString.split sep s) = s.
Proof.
  unfold JsString.split. induction s as [|c s IH]; [reflexivity|].
  cbn [JsString.splitAt]. destruct (JsString.splitAt sep s) as [first others].
  destruct (c =? sep)%char eqn:Hc.
  - apply Ascii.eqb_eq in Hc. subst c.
    change (JsString.join (String sep "") (EmptyString :: first :: others))
      with (String sep (JsString.join (String sep "") (first :: others))).
    now rewrite IH.
  - destruct others as [|second others].
    + cbn [JsString.join] in *. now rewrite IH.
    + change (JsString.join (String sep "") (String c first :: second :: others))
        with (String c (JsString.join (String sep "") (first :: second :: others))).
      now rewrite IH.
Qed.

Lemma split_lacks (sep : ascii) (s : string) :
  Forall (fun part => JsString.lacks sep part = true) (JsString.split sep s).
Proof.
  unfold JsString.split. induction s as [|c s IH]; [repeat constructor|].
  cbn [JsString.splitAt]. destruct (JsString.splitAt sep s) as [first others].
  destruct (c =? sep)%char eqn:Hc.
  - constructor; [reflexivity | exact IH].
  - inversion IH as [|? ? Hfirst Hothers]. subst.
    constructor; [|exact Hothers].
    rewrite JsStringFacts.lacks_cons, Hc. exact Hfirst.
Qed.

(** ** The export *)

Section ExportFacts.
Context {E : Engine} {L : Locale}.

Lemma pushSearch_rows (search : StoredSearch) (csvRows : list string) :
  CsvExport.pushSearch csvRows search
  = csvRows ++ List.map (CsvExport.rowOf (dateTime (timestamp search)))
                        (flights (results search)).
Proof.
  unfold CsvExport.pushSearch. cbv zeta.
  generalize (CsvExport.rowOf (dateTime (timestamp search))). intros f.
  revert csvRows.
  induction (flights (results search)) as [|leg legs IH]; intros csvRows.
  - now rewrite app_nil_r.
  - cbn [fold_left List.map]. rewrite IH, <- app_assoc. reflexivity.
Qed.

Lemma csvRows_flat_map (searchHistory : list StoredSearch) : forall start,
  fold_left CsvExport.pushSearch searchHistory start
  = start ++ flat_map (fun search =>
                         List.map (CsvExport.rowOf (dateTime (timestamp search)))
                                  (flights (results search)))
                      searchHistory.
Proof.
  induction searchHistory as [|search rest IH]; intros start.
  - now rewrite app_nil_r.
  - cbn [fold_left flat_map]. rewrite IH, pushSearch_rows, <- app_assoc. reflexivity.
Qed.
End ExportFacts.

Lemma orElse_empty (s : string) : App.orElse s "" = s.
Proof. now destruct s. Qed.

Lemma firstWord_before_space (word rest : string) :
  JsString.lacks " " word = true ->
  JsString.firstWord (word ++ String " " rest) = word.
Proof.
  induction word as [|c word IH]; [reflexivity|].
  rewrite JsStringFacts.lacks_cons. intros H.
  apply andb_true_iff in H. destruct H as [Hc Hw].
  cbn [append JsString.firstWord]. apply negb_true_iff in Hc. rewrite Hc.
  now rewrite IH.
Qed.

Lemma replaceNewlines_line (replacement a b : string) :
  JsString.lacks "010" a = true ->
  JsString.replaceNewlines replacement (a ++ String "010" b)
  = (a ++ replacement ++ JsString.replaceNewlines replacement b)%string.
Proof.
  induction a as [|c a IH]; [reflexivity|].
  rewrite JsStringFacts.lacks_cons. intros H.
  apply andb_true_iff in H. destruct H as [Hc Ha].
  cbn [append JsString.replaceNewlines]. apply negb_true_iff in Hc. rewrite Hc.
  now rewrite IH.
Qed.

Lemma unmarked_app (a b : string) : unmarked (a ++ b) = unmarked a && unmarked b.
Proof.
  unfold unmarked. rewrite !JsStringFacts.lacks_app.
  destruct (JsString.lacks "*" a), (JsString.lacks "*" b),
    (JsString.lacks "_" a), (JsString.lacks "_" b); reflexivity.
Qed.

Lemma formatWhatsAppMessage_unmarked (s : string) :
  unmarked s = true -> formatWhatsAppMessage s = s.
Proof.
  unfold unmarked, formatWhatsAppMessage. intros H.
  apply andb_true_iff in H. destruct H as [Hs Hu].
  rewrite (JsStringFacts.replaceDelimited_without _ _ _ _ Hs).
  now apply JsStringFacts.replaceDelimited_without.
Qed.

Section ChartFacts.
Context {L : Locale}.

Lemma render_nonempty (history : list PriceHistoryPoint) :
  history <> [] ->
  PriceChart.render history
  = Some {| PriceChart.bars :=
              List.map (PriceChart.bar (PriceChart.maxPrice history)) history;
            PriceChart.rows := List.map PriceChart.row (rev history) |}.
Proof. destruct history; [congruence | reflexivity]. Qed.

Lemma maxPrice_not_positive (history : list PriceHistoryPoint) :
  (forall point, In point history -> (0 <? price point)%float = false)
  \/ (exists point, In point history /\ is_nan (price point) = true) ->
  (0 <? PriceChart.maxPrice history)%float = false.
Proof.
  unfold PriceChart.maxPrice, JsMath.max. intros [Hall | (point & Hin & Hn)].
  - apply max_not_above; [reflexivity|].
    intros v Hv. apply in_app_or in Hv. destruct Hv as [Hv | [<- | []]];
      [|reflexivity].
    apply in_map_iff in Hv. destruct Hv as (point & <- & Hin). now apply Hall.
  - rewrite (max_absorbs_nan _ _ (price point)); [reflexivity | | exact Hn].
    apply in_or_app. left. now apply in_map.
Qed.
End ChartFacts.

Section SearchOutcome.
Context {E : Engine}.

Lemma handleSearch_results (w : App.World) (s : App.State) :
  App.results (App.handleSearch w s)
  = match App.tripReply w with Returned data => Some data | Thrown _ => None end.
Proof.
  unfold App.handleSearch, App.getTripData.
  destruct (App.tripReply w) as [data|message]; [|reflexivity].
  destruct (App.promiseAll _ _) as [[emailText whatsappText]|message]; reflexivity.
Qed.

Lemma handleSearch_isLoading (w : App.World) (s : App.State) :
  App.isLoading (App.handleSearch w s) = false.
Proof.
  unfold App.handleSearch, App.getTripData.
  destruct (App.tripReply w) as [data|message]; [|reflexivity].
  destruct (App.promiseAll _ _) as [[emailText whatsappText]|message]; reflexivity.
Qed.

Lemma handleSearch_summaries (w : App.World) (s : App.State) :
  App.error (App.handleSearch w s) <> None ->
  App.emailSummary (App.handleSearch w s) = None /\
  App.whatsappSummary (App.handleSearch w s) = None.
Proof.
  unfold App.handleSearch, App.getTripData.
  destruct (App.tripReply w) as [data|message]; [|now split].
  destruct (App.promiseAll _ _) as [[emailText whatsappText]|message];
    [|now split].
  intros H. now contradiction H.
Qed.
End SearchOutcome.

(** ** Percent encoding *)

Module JsUriFacts.
Import JsUri.









End JsUriFacts.

(** ** The properties *)

(** X1. Summaries fall back. When the trip search returns data with at
    least one flight, the search ends without an error whatever the two
    summary calls do: the results are shown, and each summary is the
    text of the model, asked with the analysis against the latest price
    of the history before the search, or the fixed fallback text when
    that call fails. *)
Theorem summaries_fall_back {E : Engine} (w : App.World) (s : App.State)
        (data : TripResults) :
  App.tripReply w = Returned data ->
  flights data <> [] ->
  let previous := previousPrice (App.searchHistory s) in
  let s' := App.handleSearch w s in
  App.error s' = None /\
  App.results s' = Some data /\
  App.emailSummary s'
  = Some match App.emailReply w
                 {| App.priceAnalysisPrompt := emailPriceAnalysis data previous;
                    App.tripOfPrompt := data |} with
         | Returned text => text
         | Thrown _ => App.emailFallback
         end /\
  App.whatsappSummary s'
  = Some match App.whatsAppReply w
                 {| App.priceAnalysisPrompt := whatsAppPriceAnalysis data previous;
                    App.tripOfPrompt := data |} with
         | Returned text => text
         | Thrown _ => App.whatsAppFallback
         end.
Proof.
  intros Hr Hf previous s'. subst s' previous.
  unfold App.handleSearch, App.getTripData. rewrite Hr.
  unfold App.getWhatsAppSummary, App.getEmailSummary.
  destruct (JsArray.get (flights data) (length (flights data) - 1)) eqn:Hg.
  - destruct (App.emailReply w _), (App.whatsAppReply w _); repeat split.
  - apply nth_error_None in Hg.
    destruct (flights data); [congruence | cbn [length] in Hg; lia].
Qed.

Lemma summaries_fall_back_witness :
  let w := SampleSession.online "2025-01-09T09:00:00.000Z" 200 in
  let s' := @App.handleSearch WholeNumbers.engine w App.initialState in
  (App.tripReply w = Returned (Sample.trip 200) /\
   flights (Sample.trip 200) <> []) /\
  App.error s' = None /\
  App.emailSummary s' = Some App.emailFallback /\
  App.whatsappSummary s' = Some App.whatsAppFallback.
Proof.
  cbv zeta.
  assert (Hf : flights (Sample.trip 200) <> []) by discriminate.
  split; [split; [reflexivity | exact Hf]|].
  pose proof (@summaries_fall_back WholeNumbers.engine
                (SampleSession.online "2025-01-09T09:00:00.000Z" 200)
                App.initialState (Sample.trip 200) eq_refl Hf) as H.
  cbv zeta in H. destruct H as (He & _ & Hm & Hw).
  split; [exact He | split; [exact Hm | exact Hw]].
Defined.

(** X2. Outcome of a search. After any search the loading flag is
    off, and the error depends on the reply of the trip search alone:
    the default message when that call fails, the message of reading
    [.to] of [undefined] when the reply has no flight, and none
    otherwise.  The results are those of the reply, shown also beside
    the error of a reply without flights; with an error there is no
    summary. *)
Theorem outcome_of_a_search {E : Engine} (w : App.World) (s : App.State) :
  let s' := App.handleSearch w s in
  App.isLoading s' = false /\
  App.error s'
  = match App.tripReply w with
    | Thrown _ => Some App.errorDefault
    | Returned data =>
        match flights data with
        | [] => Some App.undefinedTo
        | _ :: _ => None
        end
    end /\
  App.results s'
  = match App.tripReply w with Returned data => Some data | Thrown _ => None end /\
  (App.error s' <> None ->
   App.emailSummary s' = None /\ App.whatsappSummary s' = None).
Proof.
  cbv zeta. split; [apply handleSearch_isLoading|].
  split; [apply handleSearch_error|].
  split; [apply handleSearch_results | apply handleSearch_summaries].
Qed.

(** X3. The history of a session. Starting from a history of at most
    seven searches, the history after any sequence of searches is the
    last seven of the old history followed by one entry per search
    whose trip search returned, in order; the searches that failed
    leave no entry. *)
Theorem session_history_window {E : Engine} (worlds : list App.World)
        (s : App.State) :
  length (App.searchHistory s) <= 7 ->
  App.searchHistory (App.runSearches worlds s)
  = JsArray.slice (-7) (App.searchHistory s ++ entriesOf worlds).
Proof.
  intros H. rewrite runSearches_entries. now apply appendAll_window.
Qed.

Lemma session_history_window_witness :
  length (App.searchHistory Sample.beforeSearch) <= 7 /\
  List.map timestamp
    (App.searchHistory
       (@App.runSearches WholeNumbers.engine SampleSession.worlds Sample.beforeSearch))
  = ["2025-01-04T09:00:00.000Z"; "2025-01-05T09:00:00.000Z";
     "2025-01-06T09:00:00.000Z"; "2025-01-07T09:00:00.000Z";
     "2025-01-08T09:00:00.000Z"; "2025-01-09T09:00:00.000Z";
     "2025-01-10T09:00:00.000Z"]%string.
Proof.
  assert (H : length (App.searchHistory Sample.beforeSearch) <= 7)
    by (apply Nat.leb_le; reflexivity).
  split; [exact H|].
  rewrite (@session_history_window WholeNumbers.engine SampleSession.worlds
             Sample.beforeSearch H).
  reflexivity.
Defined.

(** X4. The stored text follows the history. Through a whole session
    begun with nothing stored, the stored item is absent exactly while
    the history is empty, and a stored item is the text of the very
    history on the screen, failed searches included; so, when the
    numbers of the history survive the engine's number texts, the mount
    effect of the next visit installs that history. *)
Theorem stored_text_follows_history {E : Engine} (worlds : list App.World) :
  let s := App.runSearches worlds App.initialState in
  (App.localStorage s = None <-> App.searchHistory s = []) /\
  (forall text,
      App.localStorage s = Some text ->
      text = JSON.stringify (ledgerToJS (App.searchHistory s))) /\
  (Forall survives (numbersOf (App.searchHistory s)) ->
   App.loadHistory {| App.history := App.initialHistory;
                      App.storedHistory := App.localStorage s |}
   = Returned {| App.history := ledgerToJS (App.searchHistory s);
                 App.storedHistory := App.localStorage s |}).
Proof.
  cbv zeta.
  assert (Hs : inSync (App.runSearches worlds App.initialState))
    by (apply runSearches_inSync; reflexivity).
  unfold inSync in Hs.
  destruct (App.localStorage (App.runSearches worlds App.initialState))
    as [text|] eqn:Ht.
  - destruct Hs as [Hs Hne]. split; [split; [discriminate | contradiction]|].
    split; [intros text' Ht'; now injection Ht' as <-|]. intros Hn.
    unfold App.loadHistory. cbn [App.storedHistory App.history].
    assert (Hp : JSON.parse text
                 = Returned (ledgerToJS (App.searchHistory
                                           (App.runSearches worlds App.initialState)))).
    { subst text. apply JSONFacts.parse_stringify. now apply ledger_faithful. }
    destruct text as [|c text].
    + assert (He : JSON.parse EmptyString = Thrown JSON.syntaxError)
        by reflexivity.
      rewrite He in Hp. discriminate Hp.
    + rewrite Hp. reflexivity.
  - split; [split; [intros _; exact Hs | reflexivity]|].
    split; [discriminate|]. intros _. rewrite Hs. reflexivity.
Qed.

Lemma stored_text_follows_history_witness :
  let s := @App.runSearches WholeNumbers.engine SampleSession.worlds
             App.initialState in
  Forall (@survives WholeNumbers.engine) (numbersOf (App.searchHistory s)) /\
  length (App.searchHistory s) = 2 /\
  App.localStorage s <> None /\
  @App.loadHistory WholeNumbers.engine
    {| App.history := App.initialHistory;
       App.storedHistory := App.localStorage s |}
  = Returned {| App.history := ledgerToJS (App.searchHistory s);
                App.storedHistory := App.localStorage s |}.
Proof.
  cbv zeta.
  assert (Hn : Forall (@survives WholeNumbers.engine)
                 (numbersOf (App.searchHistory
                               (@App.runSearches WholeNumbers.engine
                                  SampleSession.worlds App.initialState))))
    by (repeat constructor).
  split; [exact Hn|]. split; [reflexivity|]. split; [discriminate|].
  exact (proj2 (proj2 (@stored_text_follows_history WholeNumbers.engine
                         SampleSession.worlds)) Hn).
Defined.

(** X5. The narration and the chart agree. Against a previous price
    that is a number other than zero, the e-mail and the WhatsApp
    summaries are asked with the same analysis, and when the difference
    of the two totals is a number that analysis is the variation cell
    the chart draws for that difference: a rise with the upward arrow
    and the difference, a fall with the downward arrow and its absolute
    value, a stable price with the amount zero.  The amount narrated is
    never below zero. *)
Theorem narration_matches_chart_cell (data : TripResults) (p : float) :
  truthy (Some p) = true ->
  let difference := (totalFlightCost data - p)%float in
  is_nan difference = false ->
  whatsAppPriceAnalysis data (Some p) = emailPriceAnalysis data (Some p) /\
  match emailPriceAnalysis data (Some p) with
  | FirstSearch => False
  | PriceRose amount =>
      renderChange (Some difference)
      = {| className := Some "price-increase"%string;
           children := [Text "↑"; Text " "; Currency amount] |} /\
      (amount <? 0)%float = false
  | PriceFell amount =>
      renderChange (Some difference)
      = {| className := Some "price-decrease"%string;
           children := [Text "↓"; Text " "; Currency amount] |} /\
      (amount <? 0)%float = false
  | PriceStable =>
      renderChange (Some difference)
      = {| className := None; children := [Currency 0] |}
  end.
Proof.
  intros Ht difference Hn. split; [reflexivity|].
  unfold emailPriceAnalysis. cbv zeta. rewrite Ht. fold difference.
  unfold renderChange.
  destruct (0 <? difference)%float eqn:Hpos.
  - destruct (ltb_not_eqb Hpos) as [_ Hne]. rewrite Hne. cbv zeta.
    rewrite (abs_above_zero Hpos).
    split; [reflexivity | now apply ltb_asym].
  - destruct (difference <? 0)%float eqn:Hneg.
    + destruct (ltb_not_eqb Hneg) as [Hne _]. rewrite Hne. cbv zeta.
      split; [reflexivity | apply abs_not_below_zero].
    + now rewrite (eqb_zero_between Hn Hpos Hneg).
Qed.

Lemma narration_matches_chart_cell_witness :
  (truthy (Some 200%float) = true /\
   is_nan (totalFlightCost (Sample.trip 180) - 200)%float = false) /\
  emailPriceAnalysis (Sample.trip 180) (Some 200%float) = PriceFell 20 /\
  renderChange (Some (totalFlightCost (Sample.trip 180) - 200)%float)
  = {| className := Some "price-decrease"%string;
       children := [Text "↓"; Text " "; Currency 20] |}.
Proof.
  split; [split; reflexivity|].
  pose proof (narration_matches_chart_cell (Sample.trip 180) 200 eq_refl eq_refl)
    as [_ H].
  change (emailPriceAnalysis (Sample.trip 180) (Some 200%float))
    with (PriceFell 20) in H.
  split; [reflexivity | exact (proj1 H)].
Defined.

(** X6. The newest row after a search. After a search whose trip
    search returned, the chart exists and the first row of its table is
    the search just made: its time, the total on the screen, and as
    variation the total less the latest price of the history before
    the search, or the dash when there was none; below it come the
    rows of at most six older searches. *)
Theorem newest_row_after_search {E : Engine} {L : Locale}
        (w : App.World) (s : App.State) (data : TripResults) :
  App.tripReply w = Returned data ->
  let s' := App.handleSearch w s in
  exists points chart older,
    priceHistoryForChart (App.searchHistory s') = Some points /\
    PriceChart.render points = Some chart /\
    PriceChart.rows chart
    = {| PriceChart.dateCell := fullDate (App.now w);
         PriceChart.priceCell := Currency (displayedTotal s');
         PriceChart.variationCell :=
           renderChange (option_map (fun p => (totalFlightCost data - p)%float)
                                    (previousPrice (App.searchHistory s))) |}
        :: older /\
    length older = Nat.min (length (App.searchHistory s)) 6 /\
    length (PriceChart.bars chart) = length older + 1 /\
    displayedTotal s' = totalFlightCost data.
Proof.
  intros Hr s'. subst s'.
  assert (Hd : displayedTotal (App.handleSearch w s) = totalFlightCost data)
    by (unfold displayedTotal; now rewrite handleSearch_results, Hr).
  rewrite handleSearch_history, Hr, Hd.
  destruct (updatedHistory_chart (App.searchHistory s)
              (mkStoredSearch (App.now w) (totalFlightCost data) data))
    as (before & Hc & Hl).
  cbn [timestamp totalFlightPrice] in Hc.
  eexists. eexists. exists (List.map PriceChart.row (rev before)).
  split; [exact Hc|].
  split; [apply render_nonempty; now destruct before|].
  cbn [PriceChart.rows PriceChart.bars].
  rewrite rev_app_distr, !length_map, length_rev, length_app.
  repeat split; assumption.
Qed.

Lemma newest_row_after_search_witness :
  let w := SampleSession.online "2025-01-09T09:00:00.000Z" 180 in
  let s' := @App.handleSearch WholeNumbers.engine w Sample.beforeSearch in
  App.tripReply w = Returned (Sample.trip 180) /\
  exists points chart older,
    priceHistoryForChart (App.searchHistory s') = Some points /\
    @PriceChart.render SampleSession.locale points = Some chart /\
    PriceChart.rows chart
    = {| PriceChart.dateCell := "2025-01-09T09:00:00.000Z"%string;
         PriceChart.priceCell := Currency 180;
         PriceChart.variationCell :=
           {| className := Some "price-decrease"%string;
              children := [Text "↓"; Text " "; Currency 30] |} |}
        :: older /\
    length older = 6.
Proof.
  cbv zeta. split; [reflexivity|].
  destruct (@newest_row_after_search WholeNumbers.engine SampleSession.locale
              (SampleSession.online "2025-01-09T09:00:00.000Z" 180)
              Sample.beforeSearch (Sample.trip 180) eq_refl)
    as (points & chart & older & Hp & Hc & Hrows & Hl & _).
  exists points, chart, older.
  split; [exact Hp|]. split; [exact Hc|]. split; [exact Hrows | exact Hl].
Defined.

(** X7. Bars without a positive price. When no price of the history
    is above zero, as after replies without flights, or when one of
    the prices is [NaN], the chart draws one bar per point and every
    bar has the height [0]: no price is divided by the maximum. *)
Theorem flat_bars_without_positive_price {L : Locale}
        (history : list PriceHistoryPoint) (chart : PriceChart.Chart) :
  (forall point, In point history -> (0 <? price point)%float = false)
  \/ (exists point, In point history /\ is_nan (price point) = true) ->
  PriceChart.render history = Some chart ->
  length (PriceChart.bars chart) = length history /\
  Forall (fun bar => PriceChart.heightPercent bar = 0%float) (PriceChart.bars chart).
Proof.
  intros Hp Hr. apply maxPrice_not_positive in Hp.
  assert (Hb : PriceChart.bars chart
               = List.map (PriceChart.bar (PriceChart.maxPrice history)) history)
    by (destruct history; [discriminate | injection Hr as <-; reflexivity]).
  rewrite Hb. split; [apply length_map|].
  apply Forall_map, Forall_forall. intros item _.
  unfold PriceChart.bar. cbv zeta. cbn [PriceChart.heightPercent].
  now rewrite Hp.
Qed.

Lemma flat_bars_witness :
  let history := [SampleSession.zeroPoint; SampleSession.zeroPoint] in
  (forall point, In point history -> (0 <? price point)%float = false) /\
  exists chart,
    @PriceChart.render SampleSession.locale history = Some chart /\
    List.map PriceChart.heightPercent (PriceChart.bars chart) = [0; 0]%float.
Proof.
  cbv zeta.
  assert (H : forall point,
             In point [SampleSession.zeroPoint; SampleSession.zeroPoint] ->
             (0 <? price point)%float = false)
    by (intros point [<- | [<- | []]]; reflexivity).
  split; [exact H|].
  eexists. split; [reflexivity|].
  pose proof (@flat_bars_without_positive_price SampleSession.locale
                [SampleSession.zeroPoint; SampleSession.zeroPoint] _
                (or_introl H) eq_refl) as [_ Hb].
  cbn [PriceChart.bars List.map] in *.
  inversion Hb as [|? ? Hfirst Hb']. inversion Hb' as [|? ? Hsecond _].
  exact (f_equal2 (fun first second => [first; second]) Hfirst Hsecond).
Defined.

(** X8. Rows of the export. With an empty history the export only
    alerts and downloads nothing.  Otherwise it downloads the header
    line followed by one line per flight leg, the searches in the order
    of the history and the legs of a search in their order, each line
    under the time of its search; a search without flights adds no
    line. *)
Theorem export_rows {E : Engine} {L : Locale} (searchHistory : list StoredSearch) :
  let rowsOf search :=
    List.map (CsvExport.rowOf (dateTime (timestamp search)))
             (flights (results search)) in
  CsvExport.handleExportToCSV searchHistory
  = match searchHistory with
    | [] => CsvExport.Alert CsvExport.emptyAlert
    | _ :: _ =>
        CsvExport.Download CsvExport.fileName
          (JsString.join (String "010" "")
             (JsString.join "," CsvExport.headers :: flat_map rowsOf searchHistory))
    end /\
  length (CsvExport.csvRows searchHistory)
  = 1 + list_sum (List.map (fun search => length (flights (results search)))
                           searchHistory).
Proof.
  cbv zeta.
  assert (Hrows : CsvExport.csvRows searchHistory
                  = JsString.join "," CsvExport.headers
                      :: flat_map (fun search =>
                                     List.map (CsvExport.rowOf (dateTime (timestamp search)))
                                              (flights (results search)))
                                  searchHistory)
    by (unfold CsvExport.csvRows; now rewrite csvRows_flat_map).
  split.
  - unfold CsvExport.handleExportToCSV. rewrite Hrows.
    now destruct searchHistory.
  - rewrite Hrows. clear Hrows. cbn [length Nat.add]. f_equal.
    induction searchHistory as [|search rest IH]; [reflexivity|].
    cbn [flat_map List.map list_sum fold_right].
    rewrite length_app, length_map. f_equal. exact IH.
Qed.

(** X9. The flight link. The link of a flight card and the link of
    its line in the export are the same text, and it holds no space.
    For an origin, a destination and a departure that each continue
    after a first space, the link names what stands before that space
    and nothing of what follows. *)
Theorem flight_link_keeps_first_words
        (origin destination day originRest destinationRest dayRest : string)
        (airline arrival : string) (price : float) :
  JsString.lacks " " origin = true ->
  JsString.lacks " " destination = true ->
  JsString.lacks " " day = true ->
  let leg := FlightLeg.mk (origin ++ String " " originRest)
                          (destination ++ String " " destinationRest)
                          airline (day ++ String " " dayRest) arrival price in
  flightSearchUrl leg
  = ("https://www.google.com/flights#flt=" ++ origin ++ "." ++ destination ++ "."
       ++ day ++ ";c:BRL;e:1;sd:1;t:f")%string /\
  (forall anyLeg : FlightLeg.t,
      CsvExport.exportUrl anyLeg = flightSearchUrl anyLeg /\
      JsString.lacks " " (flightSearchUrl anyLeg) = true).
Proof.
  intros Ho Hd Hy leg. split.
  - unfold flightSearchUrl, leg. cbv zeta.
    cbn [FlightLeg.from FlightLeg.to FlightLeg.departure].
    now rewrite orElse_empty, !firstWord_before_space.
  - intros anyLeg. split; [reflexivity|].
    unfold flightSearchUrl. cbv zeta.
    rewrite orElse_empty, !JsStringFacts.lacks_app.
    rewrite !JsStringFacts.firstWord_lacks_space. reflexivity.
Qed.

Lemma flight_link_witness :
  (JsString.lacks " " "GRU" = true /\ JsString.lacks " " "LIS" = true /\
   JsString.lacks " " "2025-03-01" = true) /\
  flightSearchUrl (FlightLeg.mk "GRU (Guarulhos)" "LIS (Lisboa)" "TAP"
                                "2025-03-01 22:10" "2025-03-02 11:40" 200)
  = "https://www.google.com/flights#flt=GRU.LIS.2025-03-01;c:BRL;e:1;sd:1;t:f"%string.
Proof.
  split; [repeat split|].
  exact (proj1 (@flight_link_keeps_first_words "GRU" "LIS" "2025-03-01"
                  "(Guarulhos)" "(Lisboa)" "22:10" "TAP" "2025-03-02 11:40" 200
                  eq_refl eq_refl eq_refl)).
Defined.

(** X10. The markers of the WhatsApp preview. Around text that holds
    neither marker, a non-empty run between two asterisks becomes
    [<strong>] and one between two underscores becomes [<em>], the
    markers being removed; a single asterisk, and two asterisks with
    nothing between them, stay as they are. *)
Theorem whatsapp_markers (before run after : string) :
  unmarked before = true -> unmarked run = true -> unmarked after = true ->
  run <> EmptyString ->
  formatWhatsAppMessage (before ++ String "*" (run ++ String "*" after))
  = (before ++ "<strong>" ++ run ++ "</strong>" ++ after)%string /\
  formatWhatsAppMessage (before ++ String "_" (run ++ String "_" after))
  = (before ++ "<em>" ++ run ++ "</em>" ++ after)%string /\
  formatWhatsAppMessage (before ++ String "*" after)
  = (before ++ String "*" after)%string /\
  formatWhatsAppMessage (before ++ String "*" (String "*" after))
  = (before ++ String "*" (String "*" after))%string.
Proof.
  intros Hb Hr Ha Hne.
  pose proof Hb as Hb'. pose proof Hr as Hr'. pose proof Ha as Ha'.
  apply andb_true_iff in Hb', Hr', Ha'.
  destruct Hb' as [Hbs Hbu], Hr' as [Hrs Hru], Ha' as [Has Hau].
  unfold formatWhatsAppMessage. repeat split.
  - rewrite (JsStringFacts.replaceDelimited_before _ _ _ _ _ Hbs).
    rewrite JsStringFacts.replaceDelimited_opens.
    rewrite (JsStringFacts.replaceDelimited_run _ _ _ _ _ _ Hrs) by exact Hne.
    rewrite (JsStringFacts.replaceDelimited_without _ _ _ _ Has).
    apply JsStringFacts.replaceDelimited_without.
    rewrite !JsStringFacts.lacks_app, Hbu, Hru, Hau. reflexivity.
  - rewrite (JsStringFacts.replaceDelimited_without "*").
    + rewrite (JsStringFacts.replaceDelimited_before _ _ _ _ _ Hbu).
      rewrite JsStringFacts.replaceDelimited_opens.
      rewrite (JsStringFacts.replaceDelimited_run _ _ _ _ _ _ Hru) by exact Hne.
      now rewrite (JsStringFacts.replaceDelimited_without _ _ _ _ Hau).
    + rewrite JsStringFacts.lacks_app, JsStringFacts.lacks_cons,
        JsStringFacts.lacks_app, JsStringFacts.lacks_cons, Hbs, Hrs, Has.
      reflexivity.
  - rewrite (JsStringFacts.replaceDelimited_before _ _ _ _ _ Hbs).
    rewrite JsStringFacts.replaceDelimited_opens.
    rewrite (JsStringFacts.replaceDelimited_open _ _ _ _ _ Has).
    apply JsStringFacts.replaceDelimited_without.
    rewrite JsStringFacts.lacks_app, JsStringFacts.lacks_cons, Hbu, Hau.
    reflexivity.
  - rewrite (JsStringFacts.replaceDelimited_before _ _ _ _ _ Hbs).
    rewrite JsStringFacts.replaceDelimited_opens, JsStringFacts.replaceDelimited_again.
    rewrite (JsStringFacts.replaceDelimited_open _ _ _ _ _ Has).
    apply JsStringFacts.replaceDelimited_without.
    rewrite JsStringFacts.lacks_app, !JsStringFacts.lacks_cons, Hbu, Hau.
    reflexivity.
Qed.

Lemma whatsapp_markers_witness :
  (unmarked "Voos: " = true /\ unmarked "R$ 1.200" = true /\
   unmarked " no total" = true /\ "R$ 1.200"%string <> EmptyString) /\
  formatWhatsAppMessage "Voos: *R$ 1.200* no total"
  = "Voos: <strong>R$ 1.200</strong> no total"%string.
Proof.
  assert (Hne : "R$ 1.200"%string <> EmptyString) by discriminate.
  split; [repeat split; exact Hne|].
  exact (proj1 (@whatsapp_markers "Voos: " "R$ 1.200" " no total"
                  eq_refl eq_refl eq_refl Hne)).
Defined.

(** X11. The markup of the WhatsApp preview. The markup given to the
    page never holds a line feed; a summary without markers reaches
    the page with each line feed replaced by [<br />] and every other
    character as it is, none of them escaped. *)
Theorem whatsapp_html_lines (line rest : string) :
  unmarked line = true -> unmarked rest = true ->
  JsString.lacks "010" line = true ->
  whatsAppHtml (line ++ String "010" rest)
  = (line ++ "<br />" ++ whatsAppHtml rest)%string /\
  whatsAppHtml line = line /\
  (forall summary, JsString.lacks "010" (whatsAppHtml summary) = true).
Proof.
  intros Hl Hr Hn. unfold whatsAppHtml. repeat split.
  - rewrite !formatWhatsAppMessage_unmarked;
      [|exact Hr | rewrite unmarked_app, Hl; exact Hr].
    now apply replaceNewlines_line.
  - rewrite (formatWhatsAppMessage_unmarked _ Hl).
    now apply JsStringFacts.replaceNewlines_without.
  - intros summary. now apply JsStringFacts.replaceNewlines_lacks.
Qed.

Lemma whatsapp_html_lines_witness :
  (unmarked "<b>Lisboa</b>" = true /\ unmarked "7 noites" = true /\
   JsString.lacks "010" "<b>Lisboa</b>" = true) /\
  whatsAppHtml ("<b>Lisboa</b>" ++ String "010" "7 noites")
  = "<b>Lisboa</b><br />7 noites"%string.
Proof.
  split; [repeat split|].
  exact (proj1 (@whatsapp_html_lines "<b>Lisboa</b>" "7 noites"
                  eq_refl eq_refl eq_refl)).
Defined.

(** X12. The floor of the passenger counts. Whatever the count, the
    minus button never leaves fewer than one adult nor fewer than zero
    children; it takes one off while the result stays above the floor,
    and gives the floor when the result would fall below it. *)
Theorem passenger_floor (count : float) :
  (decrementAdults count <? 1)%float = false /\
  (decrementChildren count <? 0)%float = false /\
  ((1 <? count - 1)%float = true -> decrementAdults count = (count - 1)%float) /\
  ((0 <? count - 1)%float = true -> decrementChildren count = (count - 1)%float) /\
  ((count - 1 <? 1)%float = true -> decrementAdults count = 1%float) /\
  ((count - 1 <? 0)%float = true -> decrementChildren count = 0%float).
Proof.
  unfold decrementAdults, decrementChildren, JsMath.max. cbn [fold_left].
  change (JsMath.higher neg_infinity 1) with 1%float.
  change (JsMath.higher neg_infinity 0) with 0%float.
  set (less := (count - 1)%float).
  assert (Hnan : forall a, (a <? less)%float = true \/ (less <? a)%float = true ->
                           is_nan less = false).
  { intros a Ha. destruct (is_nan less) eqn:Hn; [|reflexivity].
    destruct (ltb_nan less a Hn) as [H1 H2]. destruct Ha; congruence. }
  repeat split.
  - destruct (higher_cases 1 less) as [-> | [-> | [-> H]]];
      [reflexivity | reflexivity | exact H].
  - destruct (higher_cases 0 less) as [-> | [-> | [-> H]]];
      [reflexivity | reflexivity | exact H].
  - intros H. unfold JsMath.higher.
    rewrite (Hnan 1%float (or_introl H)), H. reflexivity.
  - intros H. unfold JsMath.higher.
    rewrite (Hnan 0%float (or_introl H)), H. reflexivity.
  - intros H. unfold JsMath.higher.
    rewrite (Hnan 1%float (or_intror H)), (ltb_asym H).
    change (is_zero 1) with false. rewrite !andb_false_r. reflexivity.
  - intros H. unfold JsMath.higher.
    rewrite (Hnan 0%float (or_intror H)), (ltb_asym H).
    change (get_sign 0) with false. rewrite !andb_false_r. reflexivity.
Qed.

Lemma passenger_floor_witness :
  ((1 <? 3 - 1)%float = true /\ (2 - 1 <? 1)%float = false /\
   (0 - 1 <? 0)%float = true) /\
  decrementAdults 3 = 2%float /\
  (decrementAdults 1 <? 1)%float = false /\
  decrementChildren 0 = 0%float.
Proof.
  split; [repeat split|].
  destruct (passenger_floor 3) as (_ & _ & Hthree & _).
  destruct (passenger_floor 1) as (Hone & _).
  destruct (passenger_floor 0) as (_ & _ & _ & _ & _ & Hzero).
  split; [exact (Hthree eq_refl)|]. split; [exact Hone | exact (Hzero eq_refl)].
Defined.

(** X13. The paragraphs of the e-mail preview. The preview shows one
    paragraph per line of the summary, a line break standing for each
    empty line; no paragraph holds a line feed, and the paragraphs
    joined by line feeds give the summary back. *)
Theorem email_paragraphs (summary : string) :
  let paragraphs := emailParagraphs summary in
  JsString.join (String "010" "") (List.map paragraphText paragraphs) = summary /\
  Forall (fun p => JsString.lacks "010" (paragraphText p) = true) paragraphs /\
  (forall i, nth_error paragraphs i = Some Break <->
             nth_error (JsString.split "010" summary) i = Some EmptyString).
Proof.
  cbv zeta. unfold emailParagraphs.
  assert (Htext : forall lines,
             List.map paragraphText
               (List.map (fun line => match line with
                                      | EmptyString => Break
                                      | String _ _ => Line line
                                      end) lines) = lines).
  { induction lines as [|line lines IH]; [reflexivity|].
    cbn [List.map]. rewrite IH. now destruct line. }
  split; [rewrite Htext; apply split_join|].
  split.
  - apply Forall_forall. intros p Hp.
    assert (Hin : In (paragraphText p) (JsString.split "010" summary))
      by (rewrite <- (Htext (JsString.split "010" summary)); now apply in_map).
    pose proof (split_lacks "010" summary) as Hall.
    rewrite Forall_forall in Hall. now apply Hall.
  - intros i. rewrite nth_error_map.
    destruct (nth_error (JsString.split "010" summary) i) as [[|c line]|];
      cbn [option_map]; split; intros H; try discriminate; reflexivity.
Qed.


